(** * The AI agent orchestrator of 04-ai_agent_orchestrator.py

    A shallow embedding of the class [AIAgentOrchestrator]: the agent
    registry (a dict keyed by agent name), the execution queue (a list of
    task dicts mutated in place), the plan generators, the four estimator
    functions and the status snapshot, followed by the properties of the
    orchestration core.

    Conventions of the embedding.
    - Python [str] values are [string]s; the text handled is taken to be
      ASCII, for which [str.lower] and [len] are the functions below.
    - [datetime.now()] is an input: every operation that reads the clock
      takes the reading(s) as argument(s), in the order the source reads
      them.
    - A dict with a fixed set of keys is a record; a key that is absent
      until some operation adds it ("results", "completed_at") is an
      [option] field, [None] standing for the absent key.
    - [self.agents] is a [gmap] keyed by name, [self.execution_queue] a
      list updated by index (the task dicts are mutated in place).
    - An operation returns the new orchestrator state with its outcome;
      an uncaught Python exception is the outcome [Raised]. *)

From stdpp Require Import gmap strings list fin_maps pretty sorting.

Local Open Scope string_scope.

(** ** Strings *)

Module Str.

(** [c.lower()] on an ASCII character. *)
Definition lower_ascii (c : Ascii.ascii) : Ascii.ascii :=
  let n := Ascii.nat_of_ascii c in
  if (65 <=? n)%nat && (n <=? 90)%nat then Ascii.ascii_of_nat (n + 32) else c.

(** [s.lower()] *)
Fixpoint lower (s : string) : string :=
  match s with
  | EmptyString => EmptyString
  | String c s' => String (lower_ascii c) (lower s')
  end.

(** [needle in hay] on strings: some suffix of [hay] starts with [needle]. *)
Fixpoint contains (needle hay : string) : bool :=
  String.prefix needle hay ||
  match hay with
  | EmptyString => false
  | String _ hay' => contains needle hay'
  end.

(** [len(s)] *)
Definition len (s : string) : Z := Z.of_nat (String.length s).

(** A decimal rendering of [n] left-padded with zeros to [width] digits,
    as the [%Y], [%m], [%d], [%H], [%M] and [%S] directives print. *)
Fixpoint zeros (k : nat) : string :=
  match k with
  | O => ""
  | S k' => "0" +:+ zeros k'
  end.

Definition zero_pad (width n : nat) : string :=
  let digits := pretty n in
  zeros (width - String.length digits) +:+ digits.

End Str.

(** ** The clock *)

(** A naive [datetime] object: its seven integer fields. *)
Record datetime : Type := mk_datetime {
  year : nat;
  month : nat;
  day : nat;
  hour : nat;
  minute : nat;
  second : nat;
  microsecond : nat
}.

Definition datetime_fields (d : datetime) : list nat :=
  [year d; month d; day d; hour d; minute d; second d; microsecond d].

(** Naive datetimes compare field by field, most significant first. *)
Fixpoint lex_leb (l1 l2 : list nat) : bool :=
  match l1, l2 with
  | x :: l1', y :: l2' =>
      if (x <? y)%nat then true
      else if (y <? x)%nat then false
      else lex_leb l1' l2'
  | _, _ => true
  end.

Definition datetime_leb (d1 d2 : datetime) : bool :=
  lex_leb (datetime_fields d1) (datetime_fields d2).

Definition datetime_le (d1 d2 : datetime) : Prop := datetime_leb d1 d2 = true.

(** [d.strftime('%Y%m%d_%H%M%S')]: the microsecond field is not printed. *)
Definition strftime_Ymd_HMS (d : datetime) : string :=
  Str.zero_pad 4 (year d) +:+ Str.zero_pad 2 (month d) +:+ Str.zero_pad 2 (day d)
  +:+ "_" +:+
  Str.zero_pad 2 (hour d) +:+ Str.zero_pad 2 (minute d) +:+ Str.zero_pad 2 (second d).

(** ** Enumerations and dataclasses *)

Inductive RealityLayer : Type :=
  | PHYSICAL | EMOTIONAL | MENTAL | ASTRAL | ETHERIC | CELESTIAL | DIVINE.

(** [layer.value] *)
Definition RealityLayer_value (l : RealityLayer) : Z :=
  match l with
  | PHYSICAL => 1 | EMOTIONAL => 2 | MENTAL => 3 | ASTRAL => 4
  | ETHERIC => 5 | CELESTIAL => 6 | DIVINE => 7
  end.

Inductive PowerMachine : Type :=
  | MONEY | DATA | NARRATIVE | NETWORK | LEGAL | TECHNOLOGY | BIOLOGICAL
  | TEMPORAL | SPATIAL | ENERGY | ATTENTION | INFLUENCE | LEGACY | CONSCIOUSNESS.

Definition PowerMachine_value (m : PowerMachine) : Z :=
  match m with
  | MONEY => 1 | DATA => 2 | NARRATIVE => 3 | NETWORK => 4 | LEGAL => 5
  | TECHNOLOGY => 6 | BIOLOGICAL => 7 | TEMPORAL => 8 | SPATIAL => 9
  | ENERGY => 10 | ATTENTION => 11 | INFLUENCE => 12 | LEGACY => 13
  | CONSCIOUSNESS => 14
  end.

Record AgentExecutionContext : Type := mk_context {
  target_volume : string;
  target_section : string;
  current_business_focus : string;
  current_reality_layer : RealityLayer;
  temporal_constraints : string;
  energy_resources : string;
  priority : string
}.

Record AgentExecutionOutput : Type := mk_output {
  technical_specifications : string;
  implementation_steps : list string;
  success_metrics : list (string * string);
  cross_dimensional_impact : string;
  completion_status : string
}.

(** ** Plans *)

(** The dict every plan generator returns; "success_metrics" is a dict
    literal, kept as the list of its items in source order. *)
Record Plan : Type := mk_plan {
  plan_focus : string;
  plan_implementation : list string;
  plan_memu_integration : string;
  plan_success_metrics : list (string * string)
}.

Definition _generate_generic_plan (section : string) (context : AgentExecutionContext) : Plan :=
  {| plan_focus := "Generic Implementation for " +:+ section;
     plan_implementation :=
       ["Analyze requirements"; "Design implementation";
        "Execute implementation"; "Validate results"];
     plan_memu_integration := "All systems";
     plan_success_metrics :=
       [("completion_rate", "100%"); ("quality_score", ">90%");
        ("integration_score", ">85%")] |}.

(** [plans.get(section, default)] over a dict literal. *)
Fixpoint dict_get {V : Type} (plans : list (string * V)) (key : string) (default : V) : V :=
  match plans with
  | [] => default
  | (k, v) :: plans' => if decide (k = key) then v else dict_get plans' key default
  end.

Definition _generate_foundational_plan (section : string) (context : AgentExecutionContext) : Plan :=
  let plans :=
    [("1.0",
      {| plan_focus := "7-Layer Reality Architecture";
         plan_implementation :=
           ["Map business to reality layers"; "Implement layer-specific systems";
            "Create cross-layer integration"; "Validate layer functionality"];
         plan_memu_integration := "Enterprise core platforms";
         plan_success_metrics :=
           [("layer_coverage", "100%"); ("integration_score", ">90%");
            ("functionality_preservation", "100%")] |});
     ("2.0",
      {| plan_focus := "14 Machines of Power";
         plan_implementation :=
           ["Identify primary machines for business"; "Implement machine-specific systems";
            "Create machine coordination"; "Optimize machine performance"];
         plan_memu_integration := "All enterprise systems";
         plan_success_metrics :=
           [("machine_coverage", "100%"); ("coordination_score", ">90%");
            ("performance_improvement", ">50%")] |});
     ("3.0",
      {| plan_focus := "82-Business Neural Mapping";
         plan_implementation :=
           ["Map business to neural pathways"; "Implement neural-specific systems";
            "Create pathway optimization"; "Validate neural functionality"];
         plan_memu_integration := "Business intelligence systems";
         plan_success_metrics :=
           [("neural_coverage", "100%"); ("pathway_optimization", ">90%");
            ("business_alignment", ">95%")] |})]
  in dict_get plans section (_generate_generic_plan section context).

Definition _generate_technical_plan (section : string) (context : AgentExecutionContext) : Plan :=
  let plans :=
    [("4.0",
      {| plan_focus := "AI Agent Orchestration System";
         plan_implementation :=
           ["Implement multi-agent architecture"; "Set up MCP integration";
            "Create URL-based API architecture"; "Build iOS app ecosystem";
            "Implement real-time monitoring"];
         plan_memu_integration := "AI agent ecosystem, MCP hub, API management";
         plan_success_metrics :=
           [("agent_coordination", ">95%"); ("api_performance", "<200ms");
            ("monitoring_coverage", "100%")] |});
     ("5.0",
      {| plan_focus := "Data & Knowledge Architecture";
         plan_implementation :=
           ["Set up unified data lakehouse"; "Implement knowledge graph engine";
            "Create vector database integration"; "Build ETL/ELT pipelines";
            "Implement real-time streaming"];
         plan_memu_integration := "Database systems, intelligence systems";
         plan_success_metrics :=
           [("data_coverage", "100%"); ("query_performance", "<100ms");
            ("real_time_latency", "<50ms")] |});
     ("6.0",
      {| plan_focus := "Deployment & Infrastructure";
         plan_implementation :=
           ["Set up Kubernetes orchestration"; "Implement Terraform IaC";
            "Create CI/CD pipelines"; "Build multi-cloud strategy";
            "Implement security framework"];
         plan_memu_integration := "DevOps systems, security systems";
         plan_success_metrics :=
           [("deployment_speed", "<5min"); ("uptime", ">99.9%");
            ("security_score", ">95%")] |})]
  in dict_get plans section (_generate_generic_plan section context).

Definition _generate_temporal_plan (section : string) (context : AgentExecutionContext) : Plan :=
  {| plan_focus := "Temporal Optimization";
     plan_implementation :=
       ["Analyze temporal constraints"; "Optimize timing for business";
        "Implement temporal algorithms"; "Create temporal monitoring"];
     plan_memu_integration := "Scheduling systems, temporal systems";
     plan_success_metrics :=
       [("timing_accuracy", ">95%"); ("temporal_efficiency", ">90%");
        ("success_probability", ">85%")] |}.

Definition _generate_energetic_plan (section : string) (context : AgentExecutionContext) : Plan :=
  {| plan_focus := "Energy Flow Optimization";
     plan_implementation :=
       ["Map energy flows"; "Optimize energy circulation";
        "Implement energy monitoring"; "Create energy management"];
     plan_memu_integration := "Energy systems, flow systems";
     plan_success_metrics :=
       [("energy_efficiency", ">90%"); ("flow_optimization", ">95%");
        ("energy_utilization", ">85%")] |}.

Definition _generate_consciousness_plan (section : string) (context : AgentExecutionContext) : Plan :=
  {| plan_focus := "Consciousness Development";
     plan_implementation :=
       ["Implement AI consciousness protocols"; "Create multi-agent collective intelligence";
        "Build ethical governance frameworks"; "Develop transcendent AI architectures"];
     plan_memu_integration := "AI consciousness, transcendent systems";
     plan_success_metrics :=
       [("consciousness_level", ">90%"); ("ethical_compliance", "100%");
        ("transcendent_capability", ">85%")] |}.

Definition _generate_monitoring_plan (section : string) (context : AgentExecutionContext) : Plan :=
  {| plan_focus := "Monitoring & Optimization";
     plan_implementation :=
       ["Implement multi-dimensional metrics"; "Create adaptive learning systems";
        "Build performance tracking"; "Develop optimization algorithms"];
     plan_memu_integration := "Monitoring systems, optimization systems";
     plan_success_metrics :=
       [("monitoring_coverage", "100%"); ("optimization_efficiency", ">90%");
        ("learning_rate", ">85%")] |}.

(** The class body holds two [def _generate_execution_plan]: the
    dispatcher on the volume (line 173, parameters [context],
    [expected_outputs]) and the generator for the execution playbooks
    (line 359, parameters [section], [context]).  A class body runs top to
    bottom and each [def] rebinds its name in the class namespace, so the
    attribute [self._generate_execution_plan] is the definition of line
    359.  It never inspects its two arguments, whatever their types. *)
Definition _generate_execution_plan {A B : Type} (section : A) (context : B) : Plan :=
  {| plan_focus := "Execution Optimization";
     plan_implementation :=
       ["Implement daily protocols"; "Launch quick-win businesses";
        "Set up core infrastructure"; "Develop neural pathways"];
     plan_memu_integration := "All enterprise systems";
     plan_success_metrics :=
       [("execution_speed", ">90%"); ("success_rate", ">85%");
        ("infrastructure_coverage", "100%")] |}.

(** The definition of line 173, which the later [def] of the same name
    replaces: no attribute of the class refers to it once the class body
    has run.  Its "Volume_6" branch calls [self._generate_execution_plan],
    the definition of line 359. *)
Definition _generate_execution_plan_line_173
    (context : AgentExecutionContext) (expected_outputs : AgentExecutionOutput) : Plan :=
  let volume := target_volume context in
  let section := target_section context in
  if decide (volume = "Volume_1") then _generate_foundational_plan section context
  else if decide (volume = "Volume_2") then _generate_technical_plan section context
  else if decide (volume = "Volume_3") then _generate_temporal_plan section context
  else if decide (volume = "Volume_4") then _generate_energetic_plan section context
  else if decide (volume = "Volume_5") then _generate_consciousness_plan section context
  else if decide (volume = "Volume_6") then _generate_execution_plan section context
  else if decide (volume = "Volume_7") then _generate_monitoring_plan section context
  else _generate_generic_plan section context.

(** ** The estimators *)

Definition _calculate_cross_dimensional_impact (context : AgentExecutionContext) : string :=
  let reality_layer := RealityLayer_value (current_reality_layer context) in
  let business_focus := current_business_focus context in
  let impact_score := (reality_layer * 10 + Str.len business_focus)%Z in
  if (50 <? impact_score)%Z then
    "High - Significant cross-dimensional optimization achieved"
  else if (30 <? impact_score)%Z then
    "Medium - Moderate cross-dimensional impact"
  else
    "Low - Limited cross-dimensional impact".

Definition _calculate_business_value (context : AgentExecutionContext) : string :=
  let business_focus := Str.lower (current_business_focus context) in
  if Str.contains "credit repair" business_focus then
    "$50K-100K monthly revenue potential"
  else if Str.contains "real estate" business_focus then
    "$100K-500K monthly revenue potential"
  else if Str.contains "ai automation" business_focus then
    "$25K-75K monthly revenue potential"
  else
    "$10K-50K monthly revenue potential".

Definition _calculate_temporal_optimization (context : AgentExecutionContext) : string :=
  let temporal_constraints := Str.lower (temporal_constraints context) in
  if Str.contains "30-day" temporal_constraints then
    "High - Rapid implementation timeline"
  else if Str.contains "90-day" temporal_constraints then
    "Medium - Standard implementation timeline"
  else
    "Low - Extended implementation timeline".

Definition _calculate_energy_efficiency (context : AgentExecutionContext) : string :=
  let energy_resources := Str.lower (energy_resources context) in
  if Str.contains "high" energy_resources then
    "High - Maximum energy utilization"
  else if Str.contains "medium" energy_resources then
    "Medium - Moderate energy utilization"
  else
    "Low - Minimal energy utilization".

(** The dict [_execute_plan] builds and [execute_task] returns. *)
Record ExecutionResults : Type := mk_results {
  res_plan_focus : string;
  res_implementation_steps : list string;
  res_memu_integration : string;
  res_success_metrics : list (string * string);
  res_execution_status : string;
  res_cross_dimensional_impact : string;
  res_business_value : string;
  res_temporal_optimization : string;
  res_energy_efficiency : string
}.

Definition _execute_plan (plan : Plan) (context : AgentExecutionContext) : ExecutionResults :=
  {| res_plan_focus := plan_focus plan;
     res_implementation_steps := plan_implementation plan;
     res_memu_integration := plan_memu_integration plan;
     res_success_metrics := plan_success_metrics plan;
     res_execution_status := "Completed";
     res_cross_dimensional_impact := _calculate_cross_dimensional_impact context;
     res_business_value := _calculate_business_value context;
     res_temporal_optimization := _calculate_temporal_optimization context;
     res_energy_efficiency := _calculate_energy_efficiency context |}.

(** ** The orchestrator state *)

(** The dict stored under an agent's name by [register_agent]. *)
Record Agent : Type := mk_agent {
  agent_capabilities : list string;
  agent_reality_layers : list RealityLayer;
  agent_power_machines : list PowerMachine;
  agent_status : string;
  agent_current_task : option string
}.

(** A task dict of the execution queue.  [create_execution_task] writes
    the first seven keys; "results" and "completed_at" are added by
    [execute_task]. *)
Record Task : Type := mk_task {
  task_id : string;
  task_context : AgentExecutionContext;
  task_expected_outputs : AgentExecutionOutput;
  task_status : string;
  task_created_at : datetime;
  task_assigned_agent : option string;
  task_progress : Z;
  task_results : option ExecutionResults;
  task_completed_at : option datetime
}.

(** The attributes the operations read or write.  [self.results] stays
    the empty dict and [self.memu_integration] the constant table of
    [_load_memu_integration]; no operation below depends on them. *)
Record Orchestrator : Type := mk_orchestrator {
  agents : gmap string Agent;
  execution_queue : list Task
}.

(** [AIAgentOrchestrator()] *)
Definition init : Orchestrator :=
  {| agents := ∅; execution_queue := [] |}.

(** What a call hands back to its caller. *)
Inductive Exception : Type :=
  | KeyError (key : string).

Inductive Outcome (A : Type) : Type :=
  | Returned (value : A)
  | Raised (e : Exception).
Arguments Returned {A} value.
Arguments Raised {A} e.

(** The dict [execute_task] returns: [{"error": msg}] or the results. *)
Inductive ExecuteReturn : Type :=
  | ErrorDict (error : string)
  | ResultsDict (results : ExecutionResults).

(** [next((t for t in queue if t["id"] == task_id), None)]: the first
    task with that id, with its position in the queue. *)
Definition find_task (queue : list Task) (tid : string) : option (nat * Task) :=
  list_find (λ t, task_id t = tid) queue.

Definition register_agent (self : Orchestrator) (agent_name : string)
    (capabilities : list string) (reality_layers : list RealityLayer)
    (power_machines : list PowerMachine) : Orchestrator :=
  {| agents :=
       <[agent_name :=
           {| agent_capabilities := capabilities;
              agent_reality_layers := reality_layers;
              agent_power_machines := power_machines;
              agent_status := "Available";
              agent_current_task := None |}]> (agents self);
     execution_queue := execution_queue self |}.

(** The task dict literal of [create_execution_task]. *)
Definition new_task (tid : string) (context : AgentExecutionContext)
    (expected_outputs : AgentExecutionOutput) (now_created : datetime) : Task :=
  {| task_id := tid;
     task_context := context;
     task_expected_outputs := expected_outputs;
     task_status := "Queued";
     task_created_at := now_created;
     task_assigned_agent := None;
     task_progress := 0;
     task_results := None;
     task_completed_at := None |}.

(** The clock is read twice: [now_id] for the identifier, [now_created]
    for "created_at". *)
Definition create_execution_task (self : Orchestrator) (now_id now_created : datetime)
    (context : AgentExecutionContext) (expected_outputs : AgentExecutionOutput)
    : Orchestrator * string :=
  let tid := "task_" +:+ strftime_Ymd_HMS now_id in
  let task := new_task tid context expected_outputs now_created in
  ({| agents := agents self;
      execution_queue := execution_queue self ++ [task] |}, tid).

(** The item assignments of [assign_agent_to_task] on the task dict
    ("assigned_agent", "status") and on the agent dict ("status",
    "current_task"). *)
Definition task_assigned (task : Task) (agent_name : string) : Task :=
  {| task_id := task_id task;
     task_context := task_context task;
     task_expected_outputs := task_expected_outputs task;
     task_status := "In Progress";
     task_created_at := task_created_at task;
     task_assigned_agent := Some agent_name;
     task_progress := task_progress task;
     task_results := task_results task;
     task_completed_at := task_completed_at task |}.

Definition agent_busy (agent : Agent) (tid : string) : Agent :=
  {| agent_capabilities := agent_capabilities agent;
     agent_reality_layers := agent_reality_layers agent;
     agent_power_machines := agent_power_machines agent;
     agent_status := "Busy";
     agent_current_task := Some tid |}.

(** The item assignments of [execute_task] on the task dict ("status",
    "results", "completed_at") and on the agent dict ("status",
    "current_task"). *)
Definition task_completed (task : Task) (results : ExecutionResults) (now : datetime) : Task :=
  {| task_id := task_id task;
     task_context := task_context task;
     task_expected_outputs := task_expected_outputs task;
     task_status := "Completed";
     task_created_at := task_created_at task;
     task_assigned_agent := task_assigned_agent task;
     task_progress := task_progress task;
     task_results := Some results;
     task_completed_at := Some now |}.

Definition agent_available (agent : Agent) : Agent :=
  {| agent_capabilities := agent_capabilities agent;
     agent_reality_layers := agent_reality_layers agent;
     agent_power_machines := agent_power_machines agent;
     agent_status := "Available";
     agent_current_task := None |}.

(** [if not task] never fires on a found task: a task dict is not empty. *)
Definition assign_agent_to_task (self : Orchestrator) (tid agent_name : string)
    : Orchestrator * bool :=
  match agents self !! agent_name with
  | None => (self, false)
  | Some agent =>
      match find_task (execution_queue self) tid with
      | None => (self, false)
      | Some (i, task) =>
          if decide (agent_status agent ≠ "Available") then (self, false)
          else
            ({| agents := <[agent_name := agent_busy agent tid]> (agents self);
                execution_queue :=
                  <[i := task_assigned task agent_name]> (execution_queue self) |},
             true)
      end
  end.

(** The results of a task: the plan comes from the attribute
    [self._generate_execution_plan], called with the context and the
    expected outputs. *)
Definition task_execution_results (task : Task) : ExecutionResults :=
  let context := task_context task in
  let expected_outputs := task_expected_outputs task in
  let execution_plan := _generate_execution_plan context expected_outputs in
  _execute_plan execution_plan context.

(** [not agent_name] holds for [None] and for the empty string.  The task
    dict is updated before [self.agents[agent_name]] is subscripted, so a
    [KeyError] there leaves the task updated. *)
Definition execute_task (self : Orchestrator) (now : datetime) (tid : string)
    : Orchestrator * Outcome ExecuteReturn :=
  match find_task (execution_queue self) tid with
  | None => (self, Returned (ErrorDict "Task not found"))
  | Some (i, task) =>
      match task_assigned_agent task with
      | None => (self, Returned (ErrorDict "No agent assigned"))
      | Some agent_name =>
          if decide (agent_name = "") then (self, Returned (ErrorDict "No agent assigned"))
          else
            let results := task_execution_results task in
            let queue' := <[i := task_completed task results now]> (execution_queue self) in
            match agents self !! agent_name with
            | None =>
                ({| agents := agents self; execution_queue := queue' |},
                 Raised (KeyError agent_name))
            | Some agent =>
                ({| agents := <[agent_name := agent_available agent]> (agents self);
                    execution_queue := queue' |},
                 Returned (ResultsDict results))
            end
      end
  end.

(** The counts of [get_execution_status].  ("memu_integration_value", a
    float sum over the constant table, is left out.) *)
Record ExecutionStatus : Type := mk_status {
  total_agents : nat;
  available_agents : nat;
  busy_agents : nat;
  queued_tasks : nat;
  in_progress_tasks : nat;
  completed_tasks : nat
}.

(** [self.agents.values()] *)
Definition agent_values (self : Orchestrator) : list Agent :=
  (map_to_list (agents self)).*2.

Definition get_execution_status (self : Orchestrator) : ExecutionStatus :=
  {| total_agents := size (agents self);
     available_agents :=
       length (filter (λ a, agent_status a = "Available") (agent_values self));
     busy_agents :=
       length (filter (λ a, agent_status a = "Busy") (agent_values self));
     queued_tasks :=
       length (filter (λ t, task_status t = "Queued") (execution_queue self));
     in_progress_tasks :=
       length (filter (λ t, task_status t = "In Progress") (execution_queue self));
     completed_tasks :=
       length (filter (λ t, task_status t = "Completed") (execution_queue self)) |}.

(** ** Runs of the orchestrator *)

(** One call of the public interface, with the clock readings it makes. *)
Inductive Call : Type :=
  | CallRegister (agent_name : string) (capabilities : list string)
      (reality_layers : list RealityLayer) (power_machines : list PowerMachine)
  | CallCreate (now_id now_created : datetime)
      (context : AgentExecutionContext) (expected_outputs : AgentExecutionOutput)
  | CallAssign (tid agent_name : string)
  | CallExecute (now : datetime) (tid : string).

(** The state a call leaves behind; a caller that catches an exception
    goes on with the state the raising call left. *)
Definition step (self : Orchestrator) (c : Call) : Orchestrator :=
  match c with
  | CallRegister a caps layers machines => register_agent self a caps layers machines
  | CallCreate n1 n2 ctx out => (create_execution_task self n1 n2 ctx out).1
  | CallAssign tid a => (assign_agent_to_task self tid a).1
  | CallExecute now tid => (execute_task self now tid).1
  end.

Definition run_from (self : Orchestrator) (calls : list Call) : Orchestrator :=
  foldl step self calls.

(** The states reachable from a fresh orchestrator. *)
Definition run (calls : list Call) : Orchestrator := run_from init calls.

(** The clock readings of a call, in the order they are made. *)
Definition readings (c : Call) : list datetime :=
  match c with
  | CallCreate n1 n2 _ _ => [n1; n2]
  | CallExecute now _ => [now]
  | _ => []
  end.

(** A clock that never runs backwards: each reading of a run is at most
    every later one. *)
Definition clock_monotone (calls : list Call) : Prop :=
  StronglySorted datetime_le (calls ≫= readings).

(** The number of [create_execution_task] calls of a run. *)
Definition is_create (c : Call) : bool :=
  match c with
  | CallCreate _ _ _ _ => true
  | _ => false
  end.

Definition enqueued (calls : list Call) : nat :=
  length (filter (λ c, is_create c = true) calls).

(** ** Vocabulary of the properties *)

(** The three tiers, and the strings that carry one: the tier's name, then
    [" - "] and a justification. *)
Inductive Tier : Type := High | Medium | Low.

Definition tier_name (t : Tier) : string :=
  match t with
  | High => "High"
  | Medium => "Medium"
  | Low => "Low"
  end.

Definition has_tier (t : Tier) (label : string) : Prop :=
  String.prefix (tier_name t +:+ " - ") label = true.

Definition tiered (label : string) : Prop := ∃ t, has_tier t label.

(** The four strings [_calculate_business_value] can return. *)
Definition revenue_brackets : list string :=
  ["$50K-100K monthly revenue potential";
   "$100K-500K monthly revenue potential";
   "$25K-75K monthly revenue potential";
   "$10K-50K monthly revenue potential"].

(** The task a call names, if it names one. *)
Definition call_task (c : Call) : option string :=
  match c with
  | CallAssign tid _ => Some tid
  | CallExecute _ tid => Some tid
  | _ => None
  end.

(** The calls that can make agent [a] available again: registering [a]
    anew, and executing a task whose assigned agent is [a]. *)
Definition releases (a : string) (self : Orchestrator) (c : Call) : bool :=
  match c with
  | CallRegister b _ _ _ => bool_decide (b = a)
  | CallExecute _ tid =>
      match find_task (execution_queue self) tid with
      | Some (_, task) => bool_decide (task_assigned_agent task = Some a)
      | None => false
      end
  | _ => false
  end.

(** No call of the run releases [a]. *)
Fixpoint holds (a : string) (self : Orchestrator) (calls : list Call) : bool :=
  match calls with
  | [] => true
  | c :: calls' => negb (releases a self c) && holds a (step self c) calls'
  end.

(** Agent [a] is registered with status "Busy". *)
Definition busy (a : string) (self : Orchestrator) : Prop :=
  ∃ agent, agents self !! a = Some agent ∧ agent_status agent = "Busy".

(** The same registry with other capability, layer and machine tags. *)
Definition retag (f : string → Agent → list string * list RealityLayer * list PowerMachine)
    (self : Orchestrator) : Orchestrator :=
  {| agents :=
       map_imap (λ name agent,
         Some {| agent_capabilities := (f name agent).1.1;
                 agent_reality_layers := (f name agent).1.2;
                 agent_power_machines := (f name agent).2;
                 agent_status := agent_status agent;
                 agent_current_task := agent_current_task agent |}) (agents self);
     execution_queue := execution_queue self |}.

(** What holds of every task dict of a reachable queue. *)
Definition task_ok (task : Task) : Prop :=
  (task_status task = "Queued" ∨ task_status task = "In Progress"
   ∨ task_status task = "Completed")
  ∧ (task_status task = "Queued" →
       task_results task = None ∧ task_completed_at task = None
       ∧ task_assigned_agent task = None)
  ∧ (task_status task = "Completed" →
       is_Some (task_results task) ∧ is_Some (task_completed_at task))
  ∧ (∀ r, task_results task = Some r → r = task_execution_results task).

(** ** The scenario of [main] *)

Module Demo.

Definition context : AgentExecutionContext :=
  {| target_volume := "Volume_2";
     target_section := "4.3";
     current_business_focus := "Credit Repair Service";
     current_reality_layer := MENTAL;
     temporal_constraints := "30-day implementation";
     energy_resources := "High technical resources available";
     priority := "Medium" |}.

Definition expected_outputs : AgentExecutionOutput :=
  {| technical_specifications := "Complete API specification with monitoring endpoints";
     implementation_steps :=
       ["Design API endpoints"; "Implement authentication";
        "Create monitoring"; "Deploy and test"];
     success_metrics :=
       [("api_performance", "<200ms"); ("uptime", ">99.9%"); ("security_score", ">95%")];
     cross_dimensional_impact :=
       "High - Significant cross-dimensional optimization achieved";
     completion_status := "Pending" |}.

(** A context of the table of [_generate_technical_plan]. *)
Definition context_4_0 : AgentExecutionContext :=
  {| target_volume := "Volume_2";
     target_section := "4.0";
     current_business_focus := "Credit Repair Service";
     current_reality_layer := MENTAL;
     temporal_constraints := "30-day implementation";
     energy_resources := "High technical resources available";
     priority := "Medium" |}.

(** A context whose volume no branch of the dispatcher names. *)
Definition infra_context : AgentExecutionContext :=
  {| target_volume := "infra";
     target_section := "deploy";
     current_business_focus := "Payments API";
     current_reality_layer := PHYSICAL;
     temporal_constraints := "30-day";
     energy_resources := "high";
     priority := "Medium" |}.

(** Clock readings: two within one second, then later ones. *)
Definition t0 : datetime := mk_datetime 2024 1 15 12 0 0 100.
Definition t1 : datetime := mk_datetime 2024 1 15 12 0 0 250.
Definition t2 : datetime := mk_datetime 2024 1 15 12 0 1 0.
Definition t3 : datetime := mk_datetime 2024 1 15 12 0 2 0.

Definition tid : string := "task_20240115_120000".

Definition registrations : list Call :=
  [CallRegister "StrategyAgent"
     ["Business Analysis"; "Strategic Planning"; "Market Research"]
     [MENTAL; ASTRAL] [MONEY; DATA; NARRATIVE];
   CallRegister "TechnicalAgent"
     ["Technical Implementation"; "API Development"; "System Architecture"]
     [PHYSICAL; MENTAL] [TECHNOLOGY; DATA; NETWORK];
   CallRegister "TemporalAgent"
     ["Timing Optimization"; "Scheduling"; "Temporal Analysis"]
     [CELESTIAL; ETHERIC] [TEMPORAL; ENERGY; CONSCIOUSNESS]].

(** Agents registered, the task created. *)
Definition created : list Call :=
  registrations ++ [CallCreate t0 t0 context expected_outputs].

(** ... and assigned to "TechnicalAgent". *)
Definition assigned : list Call :=
  created ++ [CallAssign tid "TechnicalAgent"].

(** ... and executed: the calls of [main]. *)
Definition executed : list Call :=
  assigned ++ [CallExecute t2 tid].

End Demo.

(** ** Learning paths *)

(** The dict [generate_learning_path] returns. *)
Record LearningPath : Type := mk_learning_path {
  path_focus : string;
  path_days_1_7 : string;
  path_days_8_15 : string;
  path_days_16_23 : string;
  path_days_24_30 : string
}.

(** [days] is the keyword parameter with default 30; the body never reads
    it, nor [self]. *)
Definition generate_learning_path (self : Orchestrator) (target_volume : string)
    (days : Z) : LearningPath :=
  let learning_paths :=
    [("Volume_1",
      {| path_focus := "Foundational Frameworks";
         path_days_1_7 := "Chapters 1-3 (Strategy & Setup)";
         path_days_8_15 := "Chapters 4-6 (Agent Fundamentals)";
         path_days_16_23 := "Chapters 7-9 (Safety & MCP)";
         path_days_24_30 := "Chapters 10-12 (URL Architecture)" |});
     ("Volume_2",
      {| path_focus := "Technical Implementation";
         path_days_1_7 := "Chapters 4-6 (AI Agent Fundamentals)";
         path_days_8_15 := "Chapters 7-9 (MCP & Tool Integration)";
         path_days_16_23 := "Chapters 10-12 (URL Architecture & Monitoring)";
         path_days_24_30 := "Chapters 13-15 (Deployment & Infrastructure)" |})]
  in dict_get learning_paths target_volume
       {| path_focus := "Generic Learning Path";
          path_days_1_7 := "Foundation concepts";
          path_days_8_15 := "Intermediate concepts";
          path_days_16_23 := "Advanced concepts";
          path_days_24_30 := "Mastery concepts" |}.

(** ** Further vocabulary *)

(** The names a run registers. *)
Definition registered_name (c : Call) : option string :=
  match c with
  | CallRegister a _ _ _ => Some a
  | _ => None
  end.

Definition registered_names (calls : list Call) : gset string :=
  list_to_set (omap registered_name calls).

(** The tags [register_agent] stores with an agent. *)
Definition agent_tags (agent : Agent)
    : list string * list RealityLayer * list PowerMachine :=
  (agent_capabilities agent, agent_reality_layers agent, agent_power_machines agent).

(** Reading a run of decimal digits back, most significant first. *)
Definition digit_value (c : Ascii.ascii) : nat := Ascii.nat_of_ascii c - 48.

Fixpoint parse_digits (acc : nat) (s : string) : nat :=
  match s with
  | EmptyString => acc
  | String c s' => parse_digits (10 * acc + digit_value c) s'
  end.

(** The fields [strftime_Ymd_HMS] prints. *)
Definition to_the_second (d : datetime) : list nat :=
  [year d; month d; day d; hour d; minute d; second d].

(** A reading as [datetime.now()] gives it on a four-digit year: every
    other printed field has at most two digits. *)
Definition printable (d : datetime) : Prop :=
  1000 ≤ year d < 10 * 1000 ∧ month d < 100 ∧ day d < 100
  ∧ hour d < 100 ∧ minute d < 100 ∧ second d < 100.

(** * Properties *)

(** ** The queue lookup *)

Lemma find_task_Some queue tid i task :
  find_task queue tid = Some (i, task) →
  queue !! i = Some task ∧ task_id task = tid.
Proof.
  unfold find_task. intros H. apply list_find_Some in H. tauto.
Qed.

Lemma find_task_None queue tid :
  find_task queue tid = None ↔ ∀ task, task ∈ queue → task_id task ≠ tid.
Proof.
  unfold find_task. rewrite list_find_None, Forall_forall. reflexivity.
Qed.

Lemma find_task_is_Some queue tid :
  is_Some (find_task queue tid) ↔ ∃ task, task ∈ queue ∧ task_id task = tid.
Proof.
  split.
  - intros [[i task] H]. apply find_task_Some in H as [H1 H2].
    exists task. split; [|done]. apply list_elem_of_lookup. eauto.
  - intros (task & Hin & Hid).
    destruct (find_task queue tid) as [p|] eqn:E; [eauto|].
    rewrite find_task_None in E. by destruct (E task Hin).
Qed.

(** Updating a task without touching its id does not move what the
    lookup finds. *)
Lemma find_task_insert queue j old new tid i task :
  queue !! j = Some old →
  task_id new = task_id old →
  find_task queue tid = Some (i, task) →
  find_task (<[j := new]> queue) tid = Some (i, if decide (i = j) then new else task).
Proof.
  unfold find_task. intros Hj Hid H.
  apply list_find_Some in H as (Hi & Hp & Hbefore).
  apply list_find_Some. repeat split.
  - destruct (decide (i = j)) as [->|Hne].
    + apply list_lookup_insert_eq. by eapply lookup_lt_Some.
    + rewrite list_lookup_insert_ne by done. done.
  - destruct (decide (i = j)) as [->|Hne]; [|done].
    rewrite Hid. rewrite Hi in Hj. by inversion Hj; subst.
  - intros k y Hk Hlt.
    destruct (decide (j = k)) as [->|Hne].
    + rewrite list_lookup_insert_eq in Hk by (by eapply lookup_lt_Some).
      inversion Hk; subst. rewrite Hid. by eapply Hbefore.
    + rewrite list_lookup_insert_ne in Hk by done. by eapply Hbefore.
Qed.

Lemma find_task_insert_None queue j old new tid :
  queue !! j = Some old →
  task_id new = task_id old →
  find_task queue tid = None →
  find_task (<[j := new]> queue) tid = None.
Proof.
  rewrite !find_task_None. intros Hj Hid H task Hin.
  apply list_elem_of_lookup in Hin as [k Hk].
  destruct (decide (j = k)) as [->|Hne].
  - rewrite list_lookup_insert_eq in Hk by (by eapply lookup_lt_Some).
    inversion Hk; subst. rewrite Hid. apply H.
    apply list_elem_of_lookup. eauto.
  - rewrite list_lookup_insert_ne in Hk by done. apply H.
    apply list_elem_of_lookup. eauto.
Qed.

(** ** What one call does to the queue and to the registry *)

Lemma run_snoc calls c : run (calls ++ [c]) = step (run calls) c.
Proof. unfold run, run_from. by rewrite foldl_app. Qed.

Lemma run_from_app self calls calls' :
  run_from self (calls ++ calls') = run_from (run_from self calls) calls'.
Proof. unfold run_from. by rewrite foldl_app. Qed.

(** Every task of the queue after a call is a task of the queue before
    it, unchanged or updated by an assignment or an execution, or the
    task the call has appended. *)
Lemma step_queue_lookup self c i task' :
  execution_queue (step self c) !! i = Some task' →
  execution_queue self !! i = Some task'
  ∨ (∃ n1 n2 ctx out,
        c = CallCreate n1 n2 ctx out ∧ i = length (execution_queue self) ∧
        task' = new_task ("task_" +:+ strftime_Ymd_HMS n1) ctx out n2)
  ∨ (∃ task tid a,
        c = CallAssign tid a ∧ execution_queue self !! i = Some task ∧
        task_id task = tid ∧ is_Some (agents self !! a) ∧
        task' = task_assigned task a)
  ∨ (∃ task now tid,
        c = CallExecute now tid ∧ execution_queue self !! i = Some task ∧
        task_id task = tid ∧
        task' = task_completed task (task_execution_results task) now).
Proof.
  destruct c as [a caps layers machines|n1 n2 ctx out|tid a|now tid]; simpl.
  - auto.
  - intros H. apply lookup_app_Some in H as [H|[Hlen H]]; [auto|].
    right; left. exists n1, n2, ctx, out.
    apply list_lookup_singleton_Some in H as [Hi <-].
    split; [done|]. split; [lia|done].
  - unfold assign_agent_to_task.
    destruct (agents self !! a) as [agent|] eqn:Ea; [|auto].
    destruct (find_task (execution_queue self) tid) as [[j task]|] eqn:Ef; [|auto].
    destruct (decide (agent_status agent ≠ "Available")); [auto|]. simpl.
    apply find_task_Some in Ef as [Hj Hid].
    intros H. apply list_lookup_insert_Some in H as [(-> & <- & _)|[_ H]]; [|auto].
    right; right; left. exists task, tid, a. rewrite Ea. eauto.
  - unfold execute_task.
    destruct (find_task (execution_queue self) tid) as [[j task]|] eqn:Ef; [|auto].
    destruct (task_assigned_agent task) as [a|] eqn:Eag; [|auto].
    destruct (decide (a = "")); [auto|].
    apply find_task_Some in Ef as [Hj Hid].
    assert (∀ q, q !! i = Some task' →
                 q = <[j := task_completed task (task_execution_results task) now]>
                       (execution_queue self) →
                 execution_queue self !! i = Some task'
                 ∨ (∃ task0 now0 tid0,
                       CallExecute now tid = CallExecute now0 tid0 ∧
                       execution_queue self !! i = Some task0 ∧ task_id task0 = tid0 ∧
                       task' = task_completed task0 (task_execution_results task0) now0))
      as Hq.
    { intros q H ->.
      apply list_lookup_insert_Some in H as [(-> & <- & _)|[_ H]]; [|auto].
      right. exists task, now, tid. eauto. }
    destruct (agents self !! a); simpl; intros H;
      (destruct (Hq _ H eq_refl) as [?|?]; [auto|right; right; right; done]).
Qed.

(** The queue never shrinks and a task never moves. *)
Lemma step_queue_keeps self c i task :
  execution_queue self !! i = Some task →
  ∃ task', execution_queue (step self c) !! i = Some task' ∧
           task_id task' = task_id task ∧
           task_context task' = task_context task ∧
           task_expected_outputs task' = task_expected_outputs task ∧
           task_created_at task' = task_created_at task ∧
           (call_task c ≠ Some (task_id task) → task' = task).
Proof.
  intros Hi.
  destruct c as [a caps layers machines|n1 n2 ctx out|tid a|now tid]; simpl.
  - eauto 10.
  - exists task. rewrite lookup_app_l by (by eapply lookup_lt_Some). eauto 10.
  - unfold assign_agent_to_task.
    destruct (agents self !! a) as [agent|]; [|eauto 10].
    destruct (find_task (execution_queue self) tid) as [[j found]|] eqn:Ef; [|eauto 10].
    destruct (decide (agent_status agent ≠ "Available")); [eauto 10|]. simpl.
    apply find_task_Some in Ef as [Hj Hid].
    destruct (decide (j = i)) as [->|Hne].
    + rewrite Hj in Hi. inversion Hi; subst found.
      exists (task_assigned task a).
      rewrite list_lookup_insert_eq by (by eapply lookup_lt_Some).
      repeat split; try done. intros Hc. by destruct Hc; rewrite Hid.
    + exists task. rewrite list_lookup_insert_ne by done. eauto 10.
  - unfold execute_task.
    destruct (find_task (execution_queue self) tid) as [[j found]|] eqn:Ef; [|eauto 10].
    destruct (task_assigned_agent found) as [a|]; [|eauto 10].
    destruct (decide (a = "")); [eauto 10|].
    apply find_task_Some in Ef as [Hj Hid].
    assert (∃ task',
              <[j := task_completed found (task_execution_results found) now]>
                (execution_queue self) !! i = Some task' ∧
              task_id task' = task_id task ∧
              task_context task' = task_context task ∧
              task_expected_outputs task' = task_expected_outputs task ∧
              task_created_at task' = task_created_at task ∧
              (Some tid ≠ Some (task_id task) → task' = task)) as Hq.
    { destruct (decide (j = i)) as [->|Hne].
      - rewrite Hj in Hi. inversion Hi; subst found.
        exists (task_completed task (task_execution_results task) now).
        rewrite list_lookup_insert_eq by (by eapply lookup_lt_Some).
        repeat split; try done. intros Hc. by destruct Hc; rewrite Hid.
      - exists task. rewrite list_lookup_insert_ne by done. eauto 10. }
    destruct (agents self !! a); simpl; exact Hq.
Qed.

Lemma step_queue_length self c :
  length (execution_queue (step self c)) =
  length (execution_queue self) + (if is_create c then 1 else 0).
Proof.
  destruct c as [a caps layers machines|n1 n2 ctx out|tid a|now tid]; simpl.
  - lia.
  - rewrite length_app. simpl. lia.
  - unfold assign_agent_to_task.
    destruct (agents self !! a); [|simpl; lia].
    destruct (find_task (execution_queue self) tid) as [[j found]|]; [|simpl; lia].
    destruct (decide (agent_status a0 ≠ "Available")); simpl; [lia|].
    rewrite length_insert. lia.
  - unfold execute_task.
    destruct (find_task (execution_queue self) tid) as [[j found]|]; [|simpl; lia].
    destruct (task_assigned_agent found) as [a|]; [|simpl; lia].
    destruct (decide (a = "")); [simpl; lia|].
    destruct (agents self !! a); simpl; rewrite length_insert; lia.
Qed.

(** Every entry of the registry after a call is an entry from before it,
    or one the call has just marked available, or the agent the call has
    just assigned. *)
Lemma step_agents_lookup self c name agent' :
  agents (step self c) !! name = Some agent' →
  agents self !! name = Some agent'
  ∨ (agent_status agent' = "Available" ∧ agent_current_task agent' = None)
  ∨ (∃ tid, c = CallAssign tid name ∧
            agent_status agent' = "Busy" ∧ agent_current_task agent' = Some tid).
Proof.
  destruct c as [a caps layers machines|n1 n2 ctx out|tid a|now tid]; simpl.
  - intros H. apply lookup_insert_Some in H as [[_ <-]|[_ H]]; auto.
  - auto.
  - unfold assign_agent_to_task.
    destruct (agents self !! a) as [agent|] eqn:Ea; [|auto].
    destruct (find_task (execution_queue self) tid) as [[j found]|]; [|auto].
    destruct (decide (agent_status agent ≠ "Available")); [auto|]. simpl.
    intros H. apply lookup_insert_Some in H as [[-> <-]|[_ H]]; [|auto].
    right; right. by exists tid.
  - unfold execute_task.
    destruct (find_task (execution_queue self) tid) as [[j found]|]; [|auto].
    destruct (task_assigned_agent found) as [a|]; [|auto].
    destruct (decide (a = "")); [auto|].
    destruct (agents self !! a) as [agent|] eqn:Ea; simpl; [|auto].
    intros H. apply lookup_insert_Some in H as [[_ <-]|[_ H]]; auto.
Qed.

(** No call removes an agent. *)
Lemma step_agents_keeps self c name :
  is_Some (agents self !! name) → is_Some (agents (step self c) !! name).
Proof.
  intros Hs.
  assert (∀ k v, is_Some (<[k := v]> (agents self) !! name)) as Hins.
  { intros k v. rewrite lookup_insert_is_Some. destruct (decide (k = name)); auto. }
  destruct c as [a caps layers machines|n1 n2 ctx out|tid a|now tid]; simpl.
  - apply Hins.
  - done.
  - unfold assign_agent_to_task.
    destruct (agents self !! a) as [agent|]; [|done].
    destruct (find_task (execution_queue self) tid) as [[j found]|]; [|done].
    destruct (decide (agent_status agent ≠ "Available")); [done|]. apply Hins.
  - unfold execute_task.
    destruct (find_task (execution_queue self) tid) as [[j found]|]; [|done].
    destruct (task_assigned_agent found) as [a|]; [|done].
    destruct (decide (a = "")); [done|].
    destruct (agents self !! a) as [agent|]; simpl; [apply Hins|done].
Qed.

(** ** Invariants of the reachable states *)

Lemma run_task_ok calls task :
  task ∈ execution_queue (run calls) → task_ok task.
Proof.
  revert task. induction calls as [|c calls IH] using rev_ind; intros task Hin.
  - by apply elem_of_nil in Hin.
  - rewrite run_snoc in Hin. apply list_elem_of_lookup in Hin as [i Hi].
    apply step_queue_lookup in Hi
      as [Hi|[(n1 & n2 & ctx & out & _ & _ & ->)
             |[(old & tid & a & _ & Hi & _ & _ & ->)|(old & now & tid & _ & Hi & _ & ->)]]].
    + apply IH, list_elem_of_lookup. eauto.
    + unfold task_ok; simpl. repeat split; auto; try done.
    + assert (task_ok old) as (_ & _ & _ & Hres)
        by (apply IH, list_elem_of_lookup; eauto).
      unfold task_ok; simpl. repeat split; auto; try done.
    + unfold task_ok; simpl. repeat split; eauto; try done.
      intros r Hr. by inversion Hr.
Qed.

Lemma run_agent_status calls name agent :
  agents (run calls) !! name = Some agent →
  agent_status agent = "Available" ∨ agent_status agent = "Busy".
Proof.
  revert name agent. induction calls as [|c calls IH] using rev_ind; intros name agent H.
  - cbn in H. by rewrite lookup_empty in H.
  - rewrite run_snoc in H.
    apply step_agents_lookup in H as [H|[[H _]|(tid & _ & H & _)]]; eauto.
Qed.

(** The agent a task names is registered: the subscript
    [self.agents[agent_name]] of [execute_task] finds it. *)
Lemma run_assigned_registered calls task a :
  task ∈ execution_queue (run calls) →
  task_assigned_agent task = Some a →
  is_Some (agents (run calls) !! a).
Proof.
  revert task a. induction calls as [|c calls IH] using rev_ind; intros task a Hin Ha.
  - by apply elem_of_nil in Hin.
  - rewrite run_snoc in Hin |- *. apply list_elem_of_lookup in Hin as [i Hi].
    apply step_queue_lookup in Hi
      as [Hi|[(n1 & n2 & ctx & out & _ & _ & ->)
             |[(old & tid & b & _ & Hi & _ & Hb & ->)|(old & now & tid & _ & Hi & _ & ->)]]].
    + apply step_agents_keeps. eapply IH; [|done]. apply list_elem_of_lookup. eauto.
    + done.
    + simpl in Ha. inversion Ha; subst b. by apply step_agents_keeps.
    + simpl in Ha. apply step_agents_keeps. eapply IH; [|done].
      apply list_elem_of_lookup. eauto.
Qed.

Lemma run_queue_length calls :
  length (execution_queue (run calls)) = enqueued calls.
Proof.
  induction calls as [|c calls IH] using rev_ind; [done|].
  rewrite run_snoc, step_queue_length, IH. unfold enqueued.
  rewrite filter_app, length_app. f_equal.
  destruct c; done.
Qed.

(** ** Counting by status *)

Section Counting.
Context {A : Type} (P Q R : A → Prop).
Context `{!∀ x, Decision (P x)} `{!∀ x, Decision (Q x)} `{!∀ x, Decision (R x)}.

Lemma length_filter_2 (l : list A) :
  (∀ x, x ∈ l → P x ∨ Q x) →
  (∀ x, P x → Q x → False) →
  length l = length (filter P l) + length (filter Q l).
Proof.
  intros Hcover Hdisj. induction l as [|x l IH]; [done|].
  rewrite !filter_cons.
  assert (length l = length (filter P l) + length (filter Q l)) as IH'.
  { apply IH. intros y Hy. apply Hcover. by right. }
  destruct (Hcover x) as [Hx|Hx]; [by left| |].
  - rewrite decide_True by done.
    rewrite (decide_False (P := Q x)) by (intros ?; by eapply Hdisj).
    simpl. lia.
  - rewrite (decide_False (P := P x)) by (intros ?; by eapply Hdisj).
    rewrite (decide_True (P := Q x)) by done.
    simpl. lia.
Qed.

Lemma length_filter_3 (l : list A) :
  (∀ x, x ∈ l → P x ∨ Q x ∨ R x) →
  (∀ x, P x → Q x → False) →
  (∀ x, P x → R x → False) →
  (∀ x, Q x → R x → False) →
  length (filter P l) + length (filter Q l) + length (filter R l) = length l.
Proof.
  intros Hcover Hpq Hpr Hqr. induction l as [|x l IH]; [done|].
  rewrite !filter_cons.
  assert (length (filter P l) + length (filter Q l) + length (filter R l) = length l)
    as IH'.
  { apply IH. intros y Hy. apply Hcover. by right. }
  destruct (Hcover x) as [Hx|[Hx|Hx]]; [by left| | |].
  - rewrite (decide_True (P := P x)) by done.
    rewrite (decide_False (P := Q x)) by (intros ?; by eapply Hpq).
    rewrite (decide_False (P := R x)) by (intros ?; by eapply Hpr).
    simpl. lia.
  - rewrite (decide_False (P := P x)) by (intros ?; by eapply Hpq).
    rewrite (decide_True (P := Q x)) by done.
    rewrite (decide_False (P := R x)) by (intros ?; by eapply Hqr).
    simpl. lia.
  - rewrite (decide_False (P := P x)) by (intros ?; by eapply Hpr).
    rewrite (decide_False (P := Q x)) by (intros ?; by eapply Hqr).
    rewrite (decide_True (P := R x)) by done.
    simpl. lia.
Qed.
End Counting.

Lemma agent_values_lookup self agent :
  agent ∈ agent_values self → ∃ name, agents self !! name = Some agent.
Proof.
  unfold agent_values. intros H.
  apply list_elem_of_fmap in H as ([name a] & -> & H).
  apply elem_of_map_to_list in H. eauto.
Qed.

Lemma agent_values_length self : length (agent_values self) = size (agents self).
Proof. unfold agent_values. by rewrite length_fmap, length_map_to_list. Qed.

(** C10.  In every state reachable from a fresh orchestrator each
    registered agent has status "Available" or "Busy" and each task has
    status "Queued", "In Progress" or "Completed"; hence in the status
    snapshot the total of agents is the sum of the available and the busy
    ones, and the queued, in-progress and completed counts add up to the
    number of tasks enqueued so far. *)
Theorem status_snapshot_partitions (calls : list Call) :
  (∀ name agent, agents (run calls) !! name = Some agent →
     agent_status agent = "Available" ∨ agent_status agent = "Busy")
  ∧ (∀ task, task ∈ execution_queue (run calls) →
       task_status task = "Queued" ∨ task_status task = "In Progress"
       ∨ task_status task = "Completed")
  ∧ total_agents (get_execution_status (run calls)) =
      available_agents (get_execution_status (run calls))
      + busy_agents (get_execution_status (run calls))
  ∧ queued_tasks (get_execution_status (run calls))
      + in_progress_tasks (get_execution_status (run calls))
      + completed_tasks (get_execution_status (run calls)) = enqueued calls.
Proof.
  split; [apply run_agent_status|].
  split; [intros task Hin; by destruct (run_task_ok calls task Hin)|].
  split; simpl.
  - rewrite <- agent_values_length. apply length_filter_2.
    + intros agent Hin. apply agent_values_lookup in Hin as [name Hn].
      by eapply run_agent_status.
    + intros agent H1 H2. by rewrite H1 in H2.
  - rewrite <- run_queue_length. apply length_filter_3.
    + intros task Hin. by destruct (run_task_ok calls task Hin).
    + intros task H1 H2. by rewrite H1 in H2.
    + intros task H1 H2. by rewrite H1 in H2.
    + intros task H1 H2. by rewrite H1 in H2.
Qed.

(** ** Completion *)

Lemma readings_snoc (calls : list Call) (c : Call) :
  ((calls ++ [c])%list ≫= readings = (calls ≫= readings) ++ readings c)%list.
Proof. by rewrite bind_app, bind_singleton. Qed.

(** Under a clock that never runs backwards a task's creation time is a
    reading of the run and no completion time precedes it. *)
Lemma run_task_times calls task :
  clock_monotone calls →
  task ∈ execution_queue (run calls) →
  task_created_at task ∈ calls ≫= readings
  ∧ ∀ done_at, task_completed_at task = Some done_at →
               datetime_le (task_created_at task) done_at.
Proof.
  revert task. induction calls as [|c calls IH] using rev_ind; intros task Hmono Hin.
  - by apply elem_of_nil in Hin.
  - unfold clock_monotone in Hmono. rewrite readings_snoc in Hmono |- *.
    pose proof (StronglySorted_app_1_l _ _ _ Hmono) as Hmono'.
    rewrite run_snoc in Hin. apply list_elem_of_lookup in Hin as [i Hi].
    apply step_queue_lookup in Hi
      as [Hi|[(n1 & n2 & ctx & out & -> & _ & ->)
             |[(old & tid & a & _ & Hi & _ & _ & ->)|(old & now & tid & -> & Hi & _ & ->)]]].
    + destruct (IH task Hmono') as [H1 H2]; [apply list_elem_of_lookup; eauto|].
      split; [|done]. apply elem_of_app. by left.
    + simpl. split; [|done]. apply elem_of_app. right.
      apply list_elem_of_further, list_elem_of_here.
    + destruct (IH old Hmono') as [H1 H2]; [apply list_elem_of_lookup; eauto|].
      simpl. split; [|done]. apply elem_of_app. by left.
    + destruct (IH old Hmono') as [H1 H2]; [apply list_elem_of_lookup; eauto|].
      simpl. split; [apply elem_of_app; by left|].
      intros done_at Hd. inversion Hd; subst done_at.
      eapply StronglySorted_app_1_elem_of; [exact Hmono|exact H1|]. simpl.
      apply list_elem_of_here.
Qed.

(** C7 (amended).  In every state reachable from a fresh orchestrator, a
    task with status "Completed" has its results and its completion time
    set, and a task with status "Queued" has neither; the completion time
    is not earlier than the creation time when the clock read by the run
    never ran backwards.  A call of [execute_task] writes status, results and
    completion time together, so no state between calls shows a completed
    task without results. *)
Theorem completed_tasks_have_results (calls : list Call) (task : Task) :
  task ∈ execution_queue (run calls) →
  (task_status task = "Completed" →
     ∃ results done_at,
       task_results task = Some results ∧ task_completed_at task = Some done_at
       ∧ (clock_monotone calls → datetime_le (task_created_at task) done_at))
  ∧ (task_status task = "Queued" →
       task_results task = None ∧ task_completed_at task = None).
Proof.
  intros Hin.
  destruct (run_task_ok calls task Hin) as (_ & Hq & Hc & _).
  split.
  - intros Hs. destruct (Hc Hs) as [[results Hr] [done_at Hd]].
    exists results, done_at. repeat split; [done..|].
    intros Hmono. by apply (run_task_times calls task Hmono Hin).
  - intros Hs. destruct (Hq Hs) as (? & ? & _). auto.
Qed.

Lemma demo_clock_monotone : clock_monotone Demo.executed.
Proof. unfold clock_monotone. cbn. repeat constructor. Qed.

Lemma completed_tasks_have_results_witness :
  clock_monotone Demo.executed
  ∧ ∃ task results done_at,
      execution_queue (run Demo.executed) !! 0 = Some task
      ∧ task_status task = "Completed"
      ∧ task_results task = Some results ∧ task_completed_at task = Some done_at
      ∧ datetime_le (task_created_at task) done_at.
Proof.
  split; [exact demo_clock_monotone|].
  destruct (execution_queue (run Demo.executed) !! 0) as [task|] eqn:E;
    [|vm_compute in E; discriminate].
  assert (task_status task = "Completed") as Hs
    by (vm_compute in E; injection E as <-; reflexivity).
  assert (task ∈ execution_queue (run Demo.executed)) as Hin
    by (apply list_elem_of_lookup; exists 0; exact E).
  destruct (proj1 (completed_tasks_have_results Demo.executed task Hin) Hs)
    as (results & done_at & Hr & Hd & Hle).
  exists task, results, done_at.
  repeat split; [exact Hs|exact Hr|exact Hd|exact (Hle demo_clock_monotone)].
Defined.

(** C7 as stated fails: "created_at" and "completed_at" are two readings
    of the wall clock, and nothing orders them.  With the task created at
    12:00:01 and executed at a reading of 12:00:00.0001, the task is
    "Completed", with its results, and its completion time is earlier than
    its creation time. *)
Lemma completion_time_before_creation_time :
  (task_status <$>
     execution_queue
       (run [CallRegister "A1" ["build"] [PHYSICAL] [TECHNOLOGY];
             CallCreate (mk_datetime 2024 1 15 12 0 1 0) (mk_datetime 2024 1 15 12 0 1 0)
               Demo.context Demo.expected_outputs;
             CallAssign "task_20240115_120001" "A1";
             CallExecute (mk_datetime 2024 1 15 12 0 0 100) "task_20240115_120001"]) !! 0)
  = Some "Completed"
  ∧ (task_created_at <$>
       execution_queue
         (run [CallRegister "A1" ["build"] [PHYSICAL] [TECHNOLOGY];
               CallCreate (mk_datetime 2024 1 15 12 0 1 0) (mk_datetime 2024 1 15 12 0 1 0)
                 Demo.context Demo.expected_outputs;
               CallAssign "task_20240115_120001" "A1";
               CallExecute (mk_datetime 2024 1 15 12 0 0 100) "task_20240115_120001"]) !! 0)
    = Some (mk_datetime 2024 1 15 12 0 1 0)
  ∧ (task_completed_at <$>
       execution_queue
         (run [CallRegister "A1" ["build"] [PHYSICAL] [TECHNOLOGY];
               CallCreate (mk_datetime 2024 1 15 12 0 1 0) (mk_datetime 2024 1 15 12 0 1 0)
                 Demo.context Demo.expected_outputs;
               CallAssign "task_20240115_120001" "A1";
               CallExecute (mk_datetime 2024 1 15 12 0 0 100) "task_20240115_120001"]) !! 0)
    = Some (Some (mk_datetime 2024 1 15 12 0 0 100))
  ∧ ¬ datetime_le (mk_datetime 2024 1 15 12 0 1 0) (mk_datetime 2024 1 15 12 0 0 100).
Proof.
  split; [vm_compute; reflexivity|]. split; [vm_compute; reflexivity|].
  split; [vm_compute; reflexivity|]. unfold datetime_le. vm_compute. discriminate.
Qed.

(** ** Assignment *)

Lemma retag_lookup f self name :
  agents (retag f self) !! name =
  (λ agent, {| agent_capabilities := (f name agent).1.1;
               agent_reality_layers := (f name agent).1.2;
               agent_power_machines := (f name agent).2;
               agent_status := agent_status agent;
               agent_current_task := agent_current_task agent |}) <$> agents self !! name.
Proof.
  unfold retag; simpl. rewrite map_lookup_imap.
  by destruct (agents self !! name).
Qed.

(** What a successful call of [assign_agent_to_task] leaves behind. *)
Lemma assign_agent_to_task_success (self : Orchestrator) (tid a : string) :
  (assign_agent_to_task self tid a).2 = true →
  ∃ agent' i task',
    agents (assign_agent_to_task self tid a).1 !! a = Some agent'
    ∧ agent_status agent' = "Busy"
    ∧ agent_current_task agent' = Some tid
    ∧ find_task (execution_queue (assign_agent_to_task self tid a).1) tid
      = Some (i, task')
    ∧ task_assigned_agent task' = Some a
    ∧ task_status task' = "In Progress".
Proof.
  unfold assign_agent_to_task.
  destruct (agents self !! a) as [agent|]; [|done].
  destruct (find_task (execution_queue self) tid) as [[i task]|] eqn:Ef; [|done].
  destruct (decide (agent_status agent ≠ "Available")); [done|]. simpl. intros _.
  exists (agent_busy agent tid), i, (task_assigned task a).
  rewrite lookup_insert_eq.
  destruct (find_task_Some _ _ _ _ Ef) as [Hi _].
  rewrite (find_task_insert _ i task (task_assigned task a) tid i task Hi eq_refl Ef).
  by rewrite decide_True.
Qed.

(** When a call of [assign_agent_to_task] succeeds. *)
Lemma assign_agent_to_task_true_iff (self : Orchestrator) (tid a : string) :
  (assign_agent_to_task self tid a).2 = true ↔
    (∃ task, task ∈ execution_queue self ∧ task_id task = tid)
    ∧ (∃ agent, agents self !! a = Some agent ∧ agent_status agent = "Available").
Proof.
  rewrite <- find_task_is_Some. unfold assign_agent_to_task.
  destruct (agents self !! a) as [agent|] eqn:Ea.
  - destruct (find_task (execution_queue self) tid) as [[i task]|] eqn:Ef.
    + destruct (decide (agent_status agent ≠ "Available")) as [Hs|Hs]; simpl.
      * split; [done|]. intros (_ & agent0 & Heq & Hav). by inversion Heq; subst.
      * split; [|done]. intros _. split; [eauto|].
        exists agent. split; [done|].
        by destruct (decide (agent_status agent = "Available")).
    + simpl. split; [done|]. by intros [[? ?] _].
  - simpl. split; [done|]. by intros (_ & agent & ? & _).
Qed.

(** C5.  [assign_agent_to_task] returns [True] exactly when some task of
    the queue has the given id, the agent is registered and its status is
    "Available"; the tags of the registry (capabilities, reality layers,
    power machines) have no part in the answer.  On [False] the state is
    the one before the call.  On [True] the agent is "Busy" with the task
    id as current task, and the task found has the agent as assigned
    agent and status "In Progress". *)
Theorem assign_agent_to_task_spec (self : Orchestrator) (tid a : string) :
  ((assign_agent_to_task self tid a).2 = true ↔
     (∃ task, task ∈ execution_queue self ∧ task_id task = tid)
     ∧ (∃ agent, agents self !! a = Some agent ∧ agent_status agent = "Available"))
  ∧ (∀ f, (assign_agent_to_task (retag f self) tid a).2
          = (assign_agent_to_task self tid a).2)
  ∧ ((assign_agent_to_task self tid a).2 = false →
       (assign_agent_to_task self tid a).1 = self)
  ∧ ((assign_agent_to_task self tid a).2 = true →
       ∃ agent' i task',
         agents (assign_agent_to_task self tid a).1 !! a = Some agent'
         ∧ agent_status agent' = "Busy"
         ∧ agent_current_task agent' = Some tid
         ∧ find_task (execution_queue (assign_agent_to_task self tid a).1) tid
           = Some (i, task')
         ∧ task_assigned_agent task' = Some a
         ∧ task_status task' = "In Progress").
Proof.
  split; [|split; [|split]].
  - apply assign_agent_to_task_true_iff.
  - intros f. unfold assign_agent_to_task. rewrite retag_lookup. simpl.
    destruct (agents self !! a) as [agent|]; simpl; [|done].
    destruct (find_task (execution_queue self) tid) as [[i task]|]; [|done].
    by destruct (decide (agent_status agent ≠ "Available")).
  - unfold assign_agent_to_task.
    destruct (agents self !! a) as [agent|]; [|done].
    destruct (find_task (execution_queue self) tid) as [[i task]|]; [|done].
    by destruct (decide (agent_status agent ≠ "Available")).
  - apply assign_agent_to_task_success.
Qed.

Lemma assign_agent_to_task_spec_witness :
  (assign_agent_to_task (run Demo.created) Demo.tid "TechnicalAgent").2 = true
  ∧ ∃ agent' i task',
      agents (assign_agent_to_task (run Demo.created) Demo.tid "TechnicalAgent").1
        !! "TechnicalAgent" = Some agent'
      ∧ agent_status agent' = "Busy"
      ∧ agent_current_task agent' = Some Demo.tid
      ∧ find_task
          (execution_queue
             (assign_agent_to_task (run Demo.created) Demo.tid "TechnicalAgent").1)
          Demo.tid = Some (i, task')
      ∧ task_assigned_agent task' = Some "TechnicalAgent"
      ∧ task_status task' = "In Progress".
Proof.
  assert ((assign_agent_to_task (run Demo.created) Demo.tid "TechnicalAgent").2 = true)
    as Hok by (vm_compute; reflexivity).
  split; [exact Hok|].
  exact (proj2 (proj2 (proj2
    (assign_agent_to_task_spec (run Demo.created) Demo.tid "TechnicalAgent"))) Hok).
Defined.

(** ** Execution failures *)

(** C6.  [execute_task] on an id no task of the queue has returns the
    dict with error "Task not found", and on a task whose assigned agent
    is [None] the dict with error "No agent assigned"; both are returned
    values, not exceptions, and the state is the one before the call. *)
Theorem execute_task_errors (self : Orchestrator) (now : datetime) (tid : string) :
  ((∀ task, task ∈ execution_queue self → task_id task ≠ tid) →
     execute_task self now tid = (self, Returned (ErrorDict "Task not found")))
  ∧ (∀ i task,
       find_task (execution_queue self) tid = Some (i, task) →
       task_assigned_agent task = None →
       execute_task self now tid = (self, Returned (ErrorDict "No agent assigned"))).
Proof.
  split.
  - intros H. apply find_task_None in H. unfold execute_task. by rewrite H.
  - intros i task Hf Ha. unfold execute_task. by rewrite Hf, Ha.
Qed.

(** In a reachable state the subscript [self.agents[agent_name]] never
    fails: every call of [execute_task] returns. *)
Lemma execute_task_returns (calls : list Call) (now : datetime) (tid : string) :
  ∃ value, (execute_task (run calls) now tid).2 = Returned value.
Proof.
  unfold execute_task.
  destruct (find_task (execution_queue (run calls)) tid) as [[i task]|] eqn:Ef; [|eauto].
  destruct (task_assigned_agent task) as [a|] eqn:Ea; [|eauto].
  destruct (decide (a = "")); [eauto|].
  apply find_task_Some in Ef as [Hi _].
  destruct (run_assigned_registered calls task a) as [agent Hag]; [|done|].
  - apply list_elem_of_lookup. eauto.
  - rewrite Hag. simpl. eauto.
Qed.

Lemma execute_task_errors_witness :
  execute_task (run Demo.registrations) Demo.t2 "missing-task"
    = (run Demo.registrations, Returned (ErrorDict "Task not found"))
  ∧ execute_task (run Demo.created) Demo.t2 Demo.tid
    = (run Demo.created, Returned (ErrorDict "No agent assigned")).
Proof.
  split.
  - apply (proj1 (execute_task_errors (run Demo.registrations) Demo.t2 "missing-task")).
    intros task Hin. vm_compute in Hin. by apply elem_of_nil in Hin.
  - eapply (proj2 (execute_task_errors (run Demo.created) Demo.t2 Demo.tid) 0).
    + vm_compute. reflexivity.
    + reflexivity.
Defined.

(** ** Round trip *)

(** C8.  From any state: register agent [a], create a task, assign the
    task to [a] and execute it.  When the assignment returns [True] and
    the execution returns results, [a] is "Available" with no current
    task, as it was right after its registration. *)
Theorem round_trip_availability (self : Orchestrator) (a : string)
    (capabilities : list string) (reality_layers : list RealityLayer)
    (power_machines : list PowerMachine) (now_id now_created now : datetime)
    (context : AgentExecutionContext) (expected_outputs : AgentExecutionOutput) :
  let s1 := register_agent self a capabilities reality_layers power_machines in
  let s2 := (create_execution_task s1 now_id now_created context expected_outputs).1 in
  let tid := (create_execution_task s1 now_id now_created context expected_outputs).2 in
  let s3 := (assign_agent_to_task s2 tid a).1 in
  let s4 := (execute_task s3 now tid).1 in
  (assign_agent_to_task s2 tid a).2 = true →
  (∃ results, (execute_task s3 now tid).2 = Returned (ResultsDict results)) →
  ∃ registered final,
    agents s1 !! a = Some registered ∧ agents s4 !! a = Some final
    ∧ agent_status final = "Available" ∧ agent_current_task final = None
    ∧ agent_status final = agent_status registered
    ∧ agent_current_task final = agent_current_task registered.
Proof.
  intros s1 s2 tid s3 s4 Hassign [results Hexec].
  exists {| agent_capabilities := capabilities; agent_reality_layers := reality_layers;
            agent_power_machines := power_machines; agent_status := "Available";
            agent_current_task := None |}.
  destruct (assign_agent_to_task_success s2 tid a Hassign)
    as (agent' & i & task' & Ha & _ & _ & Hf & Hag & _).
  fold s3 in Ha, Hf. subst s4. revert Hexec. unfold execute_task.
  rewrite Hf, Hag. destruct (decide (a = "")); [simpl; discriminate|].
  rewrite Ha. simpl. intros _.
  exists (agent_available agent'). subst s1. simpl.
  by rewrite !lookup_insert_eq.
Qed.

Lemma round_trip_availability_witness :
  ∃ registered final,
    agents (register_agent init "A1" ["build"] [PHYSICAL] [TECHNOLOGY]) !! "A1"
      = Some registered
    ∧ agents (run [CallRegister "A1" ["build"] [PHYSICAL] [TECHNOLOGY];
                   CallCreate Demo.t0 Demo.t1 Demo.infra_context Demo.expected_outputs;
                   CallAssign Demo.tid "A1";
                   CallExecute Demo.t2 Demo.tid]) !! "A1" = Some final
    ∧ agent_status final = "Available" ∧ agent_current_task final = None
    ∧ agent_status final = agent_status registered
    ∧ agent_current_task final = agent_current_task registered.
Proof.
  refine (round_trip_availability init "A1" ["build"] [PHYSICAL] [TECHNOLOGY]
            Demo.t0 Demo.t1 Demo.t2 Demo.infra_context Demo.expected_outputs _ _).
  - vm_compute. reflexivity.
  - eexists. vm_compute. reflexivity.
Defined.

(** ** Exclusivity *)

Lemma busy_refuses a self tid :
  busy a self → assign_agent_to_task self tid a = (self, false).
Proof.
  intros (agent & Ha & Hs). unfold assign_agent_to_task. rewrite Ha.
  destruct (find_task (execution_queue self) tid) as [[i task]|]; [|done].
  rewrite decide_True; [done|]. by rewrite Hs.
Qed.

(** A busy agent stays busy through every call that is neither its own
    registration nor the execution of a task assigned to it. *)
Lemma busy_step a self c :
  busy a self → releases a self c = false → busy a (step self c).
Proof.
  intros Hb Hrel. pose proof Hb as (agent & Ha & Hs).
  destruct c as [b caps layers machines|n1 n2 ctx out|tid b|now tid]; simpl in *.
  - apply bool_decide_eq_false in Hrel.
    exists agent. simpl. by rewrite lookup_insert_ne.
  - done.
  - destruct (decide (b = a)) as [->|Hne].
    + by rewrite busy_refuses.
    + unfold assign_agent_to_task.
      destruct (agents self !! b) as [other|]; [|done].
      destruct (find_task (execution_queue self) tid) as [[i task]|]; [|done].
      destruct (decide (agent_status other ≠ "Available")); [done|]. simpl.
      exists agent. simpl. by rewrite lookup_insert_ne.
  - unfold execute_task.
    destruct (find_task (execution_queue self) tid) as [[i task]|]; [|done].
    apply bool_decide_eq_false in Hrel.
    destruct (task_assigned_agent task) as [b|]; [|done].
    destruct (decide (b = "")); [done|].
    destruct (agents self !! b) as [other|]; simpl; [|by exists agent].
    exists agent. simpl. rewrite lookup_insert_ne; [done|]. by intros ->.
Qed.

Lemma busy_run_from a calls : ∀ self,
  busy a self → holds a self calls = true → busy a (run_from self calls).
Proof.
  induction calls as [|c calls IH]; intros self Hb Hh; [done|].
  simpl in Hh. apply andb_true_iff in Hh as [Hc Hh].
  apply negb_true_iff in Hc.
  change (run_from self (c :: calls)) with (run_from (step self c) calls).
  apply IH; [|done]. by apply busy_step.
Qed.

Lemma run_from_keeps_task_id calls tid : ∀ self,
  (∃ task, task ∈ execution_queue self ∧ task_id task = tid) →
  ∃ task, task ∈ execution_queue (run_from self calls) ∧ task_id task = tid.
Proof.
  induction calls as [|c calls IH]; intros self Hex; [done|].
  change (run_from self (c :: calls)) with (run_from (step self c) calls).
  apply IH. destruct Hex as (task & Hin & Hid).
  apply list_elem_of_lookup in Hin as [i Hi].
  destruct (step_queue_keeps self c i task Hi) as (task' & Hi' & Hid' & _).
  exists task'. split; [apply list_elem_of_lookup; eauto|congruence].
Qed.

(** C3 (amended).  After [assign_agent_to_task] has returned [True] for
    task [tid] and agent [a], through any calls among which none
    registers [a] anew or executes a task assigned to [a]: every
    [assign_agent_to_task] naming [a], for any task, returns [False] and
    changes nothing; the status of the task is not looked at, and
    assigning [tid] to any registered agent with status "Available"
    returns [True]. *)
Theorem assign_refused_while_busy (self : Orchestrator) (tid a : string)
    (calls : list Call) (tid2 : string) :
  (assign_agent_to_task self tid a).2 = true →
  holds a (assign_agent_to_task self tid a).1 calls = true →
  assign_agent_to_task (run_from (assign_agent_to_task self tid a).1 calls) tid2 a
  = (run_from (assign_agent_to_task self tid a).1 calls, false)
  ∧ ∀ a2 agent2,
      agents (run_from (assign_agent_to_task self tid a).1 calls) !! a2 = Some agent2 →
      agent_status agent2 = "Available" →
      (assign_agent_to_task
         (run_from (assign_agent_to_task self tid a).1 calls) tid a2).2 = true.
Proof.
  intros Hok Hh.
  destruct (assign_agent_to_task_success self tid a Hok)
    as (agent' & i & task' & Ha & Hs & _ & Hf & _).
  split.
  - apply busy_refuses, busy_run_from; [|done]. by exists agent'.
  - intros a2 agent2 Ha2 Hs2. apply assign_agent_to_task_true_iff. split; [|eauto].
    apply run_from_keeps_task_id, find_task_is_Some. eauto.
Qed.

Lemma assign_refused_while_busy_witness :
  assign_agent_to_task
    (run_from (assign_agent_to_task (run Demo.created) Demo.tid "TechnicalAgent").1
       [CallCreate Demo.t2 Demo.t2 Demo.infra_context Demo.expected_outputs;
        CallExecute Demo.t3 "missing-task"])
    "task_20240115_120001" "TechnicalAgent"
  = (run_from (assign_agent_to_task (run Demo.created) Demo.tid "TechnicalAgent").1
       [CallCreate Demo.t2 Demo.t2 Demo.infra_context Demo.expected_outputs;
        CallExecute Demo.t3 "missing-task"],
     false)
  ∧ (assign_agent_to_task
       (run_from (assign_agent_to_task (run Demo.created) Demo.tid "TechnicalAgent").1
          [CallCreate Demo.t2 Demo.t2 Demo.infra_context Demo.expected_outputs;
           CallExecute Demo.t3 "missing-task"])
       Demo.tid "StrategyAgent").2 = true.
Proof.
  destruct (assign_refused_while_busy (run Demo.created) Demo.tid "TechnicalAgent"
              [CallCreate Demo.t2 Demo.t2 Demo.infra_context Demo.expected_outputs;
               CallExecute Demo.t3 "missing-task"]
              "task_20240115_120001") as [Hrefused Hother].
  - vm_compute. reflexivity.
  - vm_compute. reflexivity.
  - split; [exact Hrefused|].
    eapply (Hother "StrategyAgent").
    + vm_compute. reflexivity.
    + reflexivity.
Defined.

(** C3 as stated fails: the task's status is not looked at, so once the
    task is assigned to "TechnicalAgent" and "In Progress", assigning it
    to "StrategyAgent", who is available, returns [True]. *)
Lemma reassignment_of_in_progress_task_accepted :
  (assign_agent_to_task (run Demo.created) Demo.tid "TechnicalAgent").2 = true
  ∧ (task_status <$>
       execution_queue
         (assign_agent_to_task (run Demo.created) Demo.tid "TechnicalAgent").1 !! 0)
    = Some "In Progress"
  ∧ (assign_agent_to_task
       (assign_agent_to_task (run Demo.created) Demo.tid "TechnicalAgent").1
       Demo.tid "StrategyAgent").2 = true.
Proof. vm_compute. repeat split; reflexivity. Qed.

(** ** Completed tasks *)




(** ** The estimators *)

(** C9 (amended).  The four estimators are functions of the context alone
    and defined on every context.  Cross-dimensional impact, temporal
    optimization and energy efficiency return a label of one of the three
    tiers, "Low" when no threshold or keyword matches; business value
    returns one of four revenue brackets, "$10K-50K monthly revenue
    potential" when no keyword matches. *)
Theorem estimators_total (context : AgentExecutionContext) :
  (∀ context', context' = context →
     _calculate_cross_dimensional_impact context'
       = _calculate_cross_dimensional_impact context
     ∧ _calculate_business_value context' = _calculate_business_value context
     ∧ _calculate_temporal_optimization context'
       = _calculate_temporal_optimization context
     ∧ _calculate_energy_efficiency context' = _calculate_energy_efficiency context)
  ∧ tiered (_calculate_cross_dimensional_impact context)
  ∧ tiered (_calculate_temporal_optimization context)
  ∧ tiered (_calculate_energy_efficiency context)
  ∧ _calculate_business_value context ∈ revenue_brackets
  ∧ ((RealityLayer_value (current_reality_layer context) * 10
      + Str.len (current_business_focus context) ≤ 30)%Z →
     has_tier Low (_calculate_cross_dimensional_impact context))
  ∧ (Str.contains "30-day" (Str.lower (temporal_constraints context)) = false →
     Str.contains "90-day" (Str.lower (temporal_constraints context)) = false →
     has_tier Low (_calculate_temporal_optimization context))
  ∧ (Str.contains "high" (Str.lower (energy_resources context)) = false →
     Str.contains "medium" (Str.lower (energy_resources context)) = false →
     has_tier Low (_calculate_energy_efficiency context))
  ∧ (Str.contains "credit repair" (Str.lower (current_business_focus context)) = false →
     Str.contains "real estate" (Str.lower (current_business_focus context)) = false →
     Str.contains "ai automation" (Str.lower (current_business_focus context)) = false →
     _calculate_business_value context = "$10K-50K monthly revenue potential").
Proof.
  split; [by intros context' ->|].
  split.
  { unfold _calculate_cross_dimensional_impact.
    destruct (_ <? _)%Z; [by exists High|].
    destruct (_ <? _)%Z; [by exists Medium|by exists Low]. }
  split.
  { unfold _calculate_temporal_optimization.
    destruct (Str.contains "30-day" _); [by exists High|].
    destruct (Str.contains "90-day" _); [by exists Medium|by exists Low]. }
  split.
  { unfold _calculate_energy_efficiency.
    destruct (Str.contains "high" _); [by exists High|].
    destruct (Str.contains "medium" _); [by exists Medium|by exists Low]. }
  split.
  { unfold _calculate_business_value, revenue_brackets.
    destruct (Str.contains "credit repair" _); [apply list_elem_of_here|].
    destruct (Str.contains "real estate" _);
      [apply list_elem_of_further, list_elem_of_here|].
    destruct (Str.contains "ai automation" _);
      repeat (first [apply list_elem_of_here|apply list_elem_of_further]). }
  split.
  { intros Hscore. unfold _calculate_cross_dimensional_impact.
    rewrite (proj2 (Z.ltb_ge 50 _)) by lia.
    by rewrite (proj2 (Z.ltb_ge 30 _)) by lia. }
  split; [|split].
  - intros H1 H2. unfold _calculate_temporal_optimization. by rewrite H1, H2.
  - intros H1 H2. unfold _calculate_energy_efficiency. by rewrite H1, H2.
  - intros H1 H2 H3. unfold _calculate_business_value. by rewrite H1, H2, H3.
Qed.

Lemma estimators_total_witness :
  has_tier Low (_calculate_cross_dimensional_impact Demo.infra_context)
  ∧ _calculate_business_value Demo.infra_context = "$10K-50K monthly revenue potential".
Proof.
  split.
  - apply (estimators_total Demo.infra_context). vm_compute. discriminate.
  - apply (estimators_total Demo.infra_context); reflexivity.
Defined.

(** C9 as stated fails for business value: what it returns for the
    context of [main] carries none of the three tier names. *)
Lemma business_value_not_tiered :
  _calculate_business_value Demo.context = "$50K-100K monthly revenue potential"
  ∧ ¬ tiered (_calculate_business_value Demo.context).
Proof.
  split; [reflexivity|].
  intros [[| |] H]; vm_compute in H; discriminate.
Qed.

(** ** The plan of an executed task *)

(** Whatever the task, its results carry the plan of the execution
    playbooks. *)
Lemma task_execution_results_plan (task : Task) :
  res_plan_focus (task_execution_results task) = "Execution Optimization"
  ∧ res_implementation_steps (task_execution_results task)
    = ["Implement daily protocols"; "Launch quick-win businesses";
       "Set up core infrastructure"; "Develop neural pathways"].
Proof. done. Qed.

(** The dispatcher of line 173 does select by volume and section, and
    falls back to the generic plan for the section. *)
Lemma dispatcher_line_173_fallback (context : AgentExecutionContext)
    (expected_outputs : AgentExecutionOutput) :
  target_volume context ∉
    ["Volume_1"; "Volume_2"; "Volume_3"; "Volume_4"; "Volume_5"; "Volume_6"; "Volume_7"] →
  _generate_execution_plan_line_173 context expected_outputs
  = _generate_generic_plan (target_section context) context.
Proof.
  intros Hv. unfold _generate_execution_plan_line_173.
  repeat (rewrite decide_False;
          [|intros Heq; apply Hv; rewrite Heq;
            repeat (first [apply list_elem_of_here|apply list_elem_of_further])]).
  done.
Qed.

(** C1, at a task of volume "Volume_2" and section "4.0".  The plan in
    the results of [execute_task] is the plan of the execution playbooks,
    not the entry "4.0" of the table of technical plans, which is what the
    dispatcher of line 173 yields for this context. *)
Theorem execute_task_plan_ignores_volume :
  plan_focus (_generate_execution_plan_line_173 Demo.context_4_0 Demo.expected_outputs)
  = "AI Agent Orchestration System"
  ∧ ∃ results,
      (execute_task
         (run (Demo.registrations ++
               [CallCreate Demo.t0 Demo.t0 Demo.context_4_0 Demo.expected_outputs;
                CallAssign Demo.tid "TechnicalAgent"]))
         Demo.t2 Demo.tid).2 = Returned (ResultsDict results)
      ∧ res_plan_focus results = "Execution Optimization".
Proof.
  split; [reflexivity|]. eexists. split; [vm_compute; reflexivity|reflexivity].
Qed.

(** ** Task identifiers *)

(** The identifier is a function of the first clock reading alone. *)
Lemma create_execution_task_id (self : Orchestrator) (now_id now_created : datetime)
    (context : AgentExecutionContext) (expected_outputs : AgentExecutionOutput) :
  (create_execution_task self now_id now_created context expected_outputs).2
  = "task_" +:+ strftime_Ymd_HMS now_id.
Proof. done. Qed.

(** C2, at two calls within one second.  Both tasks get the identifier
    "task_20240115_120000"; the queue then holds two tasks with that id,
    and the lookup by id reaches the first only. *)
Theorem same_second_tasks_share_id :
  Demo.t0 ≠ Demo.t1
  ∧ (create_execution_task init Demo.t0 Demo.t0 Demo.context Demo.expected_outputs).2
    = "task_20240115_120000"
  ∧ (create_execution_task
       (create_execution_task init Demo.t0 Demo.t0 Demo.context Demo.expected_outputs).1
       Demo.t1 Demo.t1 Demo.infra_context Demo.expected_outputs).2
    = "task_20240115_120000"
  ∧ (create_execution_task
       (create_execution_task init Demo.t0 Demo.t0 Demo.context Demo.expected_outputs).1
       Demo.t0 Demo.t0 Demo.infra_context Demo.expected_outputs).2
    = "task_20240115_120000"
  ∧ task_id <$>
      execution_queue
        (run [CallCreate Demo.t0 Demo.t0 Demo.context Demo.expected_outputs;
              CallCreate Demo.t1 Demo.t1 Demo.infra_context Demo.expected_outputs])
    = ["task_20240115_120000"; "task_20240115_120000"]
  ∧ fst <$>
      find_task
        (execution_queue
           (run [CallCreate Demo.t0 Demo.t0 Demo.context Demo.expected_outputs;
                 CallCreate Demo.t1 Demo.t1 Demo.infra_context Demo.expected_outputs]))
        "task_20240115_120000"
    = Some 0.
Proof.
  split; [discriminate|]. vm_compute. repeat split; reflexivity.
Qed.

(** * Further properties of the orchestrator *)

(** ** Which task a call updates *)

(** As [step_queue_lookup], with what the call has looked up: an updated
    task is the first of the queue with the id the call names. *)
Lemma step_queue_lookup_found self c i task' :
  execution_queue (step self c) !! i = Some task' →
  execution_queue self !! i = Some task'
  ∨ (∃ n1 n2 ctx out,
        c = CallCreate n1 n2 ctx out ∧ i = length (execution_queue self) ∧
        task' = new_task ("task_" +:+ strftime_Ymd_HMS n1) ctx out n2)
  ∨ (∃ task tid a,
        c = CallAssign tid a ∧ find_task (execution_queue self) tid = Some (i, task) ∧
        is_Some (agents self !! a) ∧ task' = task_assigned task a)
  ∨ (∃ task now tid a,
        c = CallExecute now tid ∧ find_task (execution_queue self) tid = Some (i, task) ∧
        task_assigned_agent task = Some a ∧ a ≠ "" ∧
        task' = task_completed task (task_execution_results task) now).
Proof.
  destruct c as [a caps layers machines|n1 n2 ctx out|tid a|now tid]; simpl.
  - auto.
  - intros H. apply lookup_app_Some in H as [H|[Hlen H]]; [auto|].
    right; left. exists n1, n2, ctx, out.
    apply list_lookup_singleton_Some in H as [Hi <-].
    split; [done|]. split; [lia|done].
  - unfold assign_agent_to_task.
    destruct (agents self !! a) as [agent|] eqn:Ea; [|auto].
    destruct (find_task (execution_queue self) tid) as [[j task]|] eqn:Ef; [|auto].
    destruct (decide (agent_status agent ≠ "Available")); [auto|]. simpl.
    intros H. apply list_lookup_insert_Some in H as [(-> & <- & _)|[_ H]]; [|auto].
    right; right; left. exists task, tid, a. rewrite Ea. eauto.
  - unfold execute_task.
    destruct (find_task (execution_queue self) tid) as [[j task]|] eqn:Ef; [|auto].
    destruct (task_assigned_agent task) as [a|] eqn:Eag; [|auto].
    destruct (decide (a = "")) as [|Hne]; [auto|].
    assert (<[j := task_completed task (task_execution_results task) now]>
              (execution_queue self) !! i = Some task' →
            execution_queue self !! i = Some task'
            ∨ (j = i ∧ task' = task_completed task (task_execution_results task) now))
      as Hq.
    { intros H. apply list_lookup_insert_Some in H as [(-> & <- & _)|[_ H]]; auto. }
    destruct (agents self !! a); simpl; intros H;
      (destruct (Hq H) as [?|[-> ->]]; [auto|]);
      right; right; right; exists task, now, tid, a; auto.
Qed.

(** X1.  In every state reachable from a fresh orchestrator a task has
    status "Queued" exactly when it has no assigned agent, and the agent a
    task names is registered. *)
Theorem queued_iff_unassigned (calls : list Call) (task : Task) :
  task ∈ execution_queue (run calls) →
  (task_status task = "Queued" ↔ task_assigned_agent task = None)
  ∧ ∀ a, task_assigned_agent task = Some a → is_Some (agents (run calls) !! a).
Proof.
  intros Hin. split; [|intros a; by apply run_assigned_registered].
  revert task Hin. induction calls as [|c calls IH] using rev_ind; intros task Hin.
  - by apply elem_of_nil in Hin.
  - rewrite run_snoc in Hin. apply list_elem_of_lookup in Hin as [i Hi].
    apply step_queue_lookup_found in Hi
      as [Hi|[(n1 & n2 & ctx & out & _ & _ & ->)
             |[(old & tid & a & _ & Hf & _ & ->)
              |(old & now & tid & a & _ & Hf & Ha & _ & ->)]]].
    + apply IH, list_elem_of_lookup. eauto.
    + done.
    + simpl. split; discriminate.
    + simpl. rewrite Ha. split; discriminate.
Qed.

Lemma queued_iff_unassigned_witness :
  ∃ task, execution_queue (run Demo.assigned) !! 0 = Some task
          ∧ task_assigned_agent task = Some "TechnicalAgent"
          ∧ is_Some (agents (run Demo.assigned) !! "TechnicalAgent").
Proof.
  destruct (execution_queue (run Demo.assigned) !! 0) as [task|] eqn:E;
    [|vm_compute in E; discriminate].
  assert (task_assigned_agent task = Some "TechnicalAgent") as Ha
    by (vm_compute in E; injection E as <-; reflexivity).
  exists task. split; [reflexivity|]. split; [exact Ha|].
  refine (proj2 (queued_iff_unassigned Demo.assigned task _) "TechnicalAgent" Ha).
  apply list_elem_of_lookup. exists 0. exact E.
Defined.

(** ** Agents and their current task *)

(** The lookup by id finds the same position after any call; the task
    there is as before, or has just been assigned or completed. *)
Lemma step_find_task self c tid i task :
  find_task (execution_queue self) tid = Some (i, task) →
  ∃ task',
    find_task (execution_queue (step self c)) tid = Some (i, task')
    ∧ (task' = task ∨ task_status task' = "In Progress"
       ∨ task_status task' = "Completed").
Proof.
  intros Hf.
  assert (∀ j found new,
            find_task (execution_queue self) (task_id found) = Some (j, found) →
            task_id new = task_id found →
            task_status new = "In Progress" ∨ task_status new = "Completed" →
            ∃ task',
              find_task (<[j := new]> (execution_queue self)) tid = Some (i, task')
              ∧ (task' = task ∨ task_status task' = "In Progress"
                 ∨ task_status task' = "Completed")) as Hupd.
  { intros j found new Hj Hid Hst. apply find_task_Some in Hj as [Hj _].
    rewrite (find_task_insert _ j found new tid i task Hj Hid Hf).
    destruct (decide (i = j)); eauto. }
  destruct c as [a caps layers machines|n1 n2 ctx out|tid' a|now tid']; simpl.
  - eauto.
  - exists task. split; [|auto]. by apply list_find_app_l.
  - unfold assign_agent_to_task.
    destruct (agents self !! a) as [agent|]; [|eauto].
    destruct (find_task (execution_queue self) tid') as [[j found]|] eqn:Ef; [|eauto].
    destruct (decide (agent_status agent ≠ "Available")); [eauto|]. simpl.
    destruct (find_task_Some _ _ _ _ Ef) as [_ <-].
    eapply Hupd; [exact Ef|done|by left].
  - unfold execute_task.
    destruct (find_task (execution_queue self) tid') as [[j found]|] eqn:Ef; [|eauto].
    destruct (task_assigned_agent found) as [a|]; [|eauto].
    destruct (decide (a = "")); [eauto|].
    destruct (find_task_Some _ _ _ _ Ef) as [_ <-].
    destruct (agents self !! a); simpl; (eapply Hupd; [exact Ef|done|by right]).
Qed.

(** As [step_agents_lookup], with the success of the assignment. *)
Lemma step_agents_lookup_assigned self c name agent' :
  agents (step self c) !! name = Some agent' →
  agents self !! name = Some agent'
  ∨ (agent_status agent' = "Available" ∧ agent_current_task agent' = None)
  ∨ (∃ tid, c = CallAssign tid name ∧ (assign_agent_to_task self tid name).2 = true ∧
            agent_status agent' = "Busy" ∧ agent_current_task agent' = Some tid).
Proof.
  intros H. destruct (step_agents_lookup self c name agent' H)
    as [?|[?|(tid & -> & Hs & Hc)]]; [auto..|].
  destruct ((assign_agent_to_task self tid name).2) eqn:Hok.
  - right; right. by exists tid.
  - left. simpl in H.
    assert ((assign_agent_to_task self tid name).1 = self) as Heq.
    { revert Hok. unfold assign_agent_to_task.
      destruct (agents self !! name) as [agent|]; [|done].
      destruct (find_task (execution_queue self) tid) as [[j found]|]; [|done].
      by destruct (decide (agent_status agent ≠ "Available")). }
    by rewrite Heq in H.
Qed.

(** X2.  In every state reachable from a fresh orchestrator an agent is
    either "Available" with no current task, or "Busy" with a current task
    whose id some task of the queue carries, the first such task not being
    "Queued". *)
Theorem agent_current_task_consistent (calls : list Call) (name : string) (agent : Agent) :
  agents (run calls) !! name = Some agent →
  (agent_status agent = "Available" ∧ agent_current_task agent = None)
  ∨ (agent_status agent = "Busy"
     ∧ ∃ tid i task,
         agent_current_task agent = Some tid
         ∧ find_task (execution_queue (run calls)) tid = Some (i, task)
         ∧ task_status task ≠ "Queued").
Proof.
  revert name agent. induction calls as [|c calls IH] using rev_ind; intros name agent H.
  - cbn in H. by rewrite lookup_empty in H.
  - rewrite run_snoc in H |- *.
    apply step_agents_lookup_assigned in H as [H|[?|(tid & -> & Hok & Hs & Hc)]]; [|auto|].
    + destruct (IH name agent H) as [?|(Hs & tid & i & task & Hc & Hf & Hq)]; [auto|].
      right. split; [done|].
      destruct (step_find_task (run calls) c tid i task Hf) as (task' & Hf' & Hst).
      exists tid, i, task'. split; [done|]. split; [done|].
      destruct Hst as [->|[Hst|Hst]]; [done|by rewrite Hst..].
    + right. split; [done|].
      destruct (assign_agent_to_task_success (run calls) tid name Hok)
        as (_ & i & task' & _ & _ & _ & Hf & _ & Hst).
      exists tid, i, task'. split; [done|]. split; [done|]. by rewrite Hst.
Qed.

Lemma agent_current_task_consistent_witness :
  ∃ agent, agents (run Demo.assigned) !! "TechnicalAgent" = Some agent
           ∧ agent_status agent = "Busy"
           ∧ ∃ tid i task,
               agent_current_task agent = Some tid
               ∧ find_task (execution_queue (run Demo.assigned)) tid = Some (i, task)
               ∧ task_status task ≠ "Queued".
Proof.
  destruct (agents (run Demo.assigned) !! "TechnicalAgent") as [agent|] eqn:E;
    [|vm_compute in E; discriminate].
  assert (agent_status agent = "Busy") as Hs
    by (vm_compute in E; injection E as <-; reflexivity).
  exists agent. split; [reflexivity|]. split; [exact Hs|].
  destruct (agent_current_task_consistent Demo.assigned "TechnicalAgent" agent E)
    as [[Ha _]|[_ H]]; [|exact H].
  rewrite Hs in Ha. discriminate.
Defined.

(** ** The life of a task *)

(** What a call does to a task that is in the queue. *)
Lemma step_task_evolves self c i task :
  execution_queue self !! i = Some task →
  ∃ task',
    execution_queue (step self c) !! i = Some task'
    ∧ (task' = task
       ∨ (∃ a, is_Some (agents self !! a) ∧ task' = task_assigned task a)
       ∨ (∃ now a, task_assigned_agent task = Some a ∧ a ≠ "" ∧
                   task' = task_completed task (task_execution_results task) now)).
Proof.
  intros Hi. destruct (step_queue_keeps self c i task Hi) as (task' & Hi' & _).
  exists task'. split; [done|].
  apply step_queue_lookup_found in Hi'
    as [Hi'|[(n1 & n2 & ctx & out & _ & Hlen & _)
           |[(old & tid & a & _ & Hf & Ha & ->)
            |(old & now & tid & a & _ & Hf & Ha & Hne & ->)]]].
  - left. congruence.
  - apply lookup_lt_Some in Hi. lia.
  - apply find_task_Some in Hf as [Hold _].
    assert (old = task) as -> by congruence. eauto.
  - apply find_task_Some in Hf as [Hold _].
    assert (old = task) as -> by congruence. eauto 10.
Qed.

(** X3.  From any state and through any calls, a task keeps its place in
    the queue, and its id, context, expected outputs, creation time and
    progress stay as they are: the queue is append-only and these keys are
    never rewritten. *)
Theorem queue_append_only (calls : list Call) : ∀ (self : Orchestrator) (i : nat) (task : Task),
  execution_queue self !! i = Some task →
  ∃ task',
    execution_queue (run_from self calls) !! i = Some task'
    ∧ task_id task' = task_id task
    ∧ task_context task' = task_context task
    ∧ task_expected_outputs task' = task_expected_outputs task
    ∧ task_created_at task' = task_created_at task
    ∧ task_progress task' = task_progress task.
Proof.
  induction calls as [|c calls IH]; intros self i task Hi; [eauto 10|].
  change (run_from self (c :: calls)) with (run_from (step self c) calls).
  destruct (step_task_evolves self c i task Hi) as (mid & Hmid & Hcase).
  destruct (IH _ _ _ Hmid) as (task' & Hi' & H1 & H2 & H3 & H4 & H5).
  exists task'. split; [done|].
  destruct Hcase as [->|[(a & _ & ->)|(now & a & _ & _ & ->)]]; auto.
Qed.

Lemma queue_append_only_witness :
  ∃ task task',
    execution_queue (run Demo.created) !! 0 = Some task
    ∧ execution_queue
        (run_from (run Demo.created)
           [CallAssign Demo.tid "TechnicalAgent"; CallExecute Demo.t2 Demo.tid;
            CallCreate Demo.t3 Demo.t3 Demo.infra_context Demo.expected_outputs]) !! 0
      = Some task'
    ∧ task_id task' = task_id task
    ∧ task_created_at task' = task_created_at task.
Proof.
  destruct (execution_queue (run Demo.created) !! 0) as [task|] eqn:E;
    [|vm_compute in E; discriminate].
  destruct (queue_append_only
              [CallAssign Demo.tid "TechnicalAgent"; CallExecute Demo.t2 Demo.tid;
               CallCreate Demo.t3 Demo.t3 Demo.infra_context Demo.expected_outputs]
              (run Demo.created) 0 task E) as (task' & H1 & H2 & _ & _ & H3 & _).
  exists task, task'. auto.
Defined.

(** X4.  From any state and through any calls, a task that has left
    "Queued" never is "Queued" again, a task that has an assigned agent
    never is without one again, and results and completion time, once
    written, are never removed. *)
Theorem task_never_requeued (calls : list Call) : ∀ (self : Orchestrator) (i : nat) (task : Task),
  execution_queue self !! i = Some task →
  ∃ task',
    execution_queue (run_from self calls) !! i = Some task'
    ∧ (task_status task ≠ "Queued" → task_status task' ≠ "Queued")
    ∧ (is_Some (task_assigned_agent task) → is_Some (task_assigned_agent task'))
    ∧ (is_Some (task_results task) → is_Some (task_results task'))
    ∧ (is_Some (task_completed_at task) → is_Some (task_completed_at task')).
Proof.
  induction calls as [|c calls IH]; intros self i task Hi; [eauto 10|].
  change (run_from self (c :: calls)) with (run_from (step self c) calls).
  destruct (step_task_evolves self c i task Hi) as (mid & Hmid & Hcase).
  destruct (IH _ _ _ Hmid) as (task' & Hi' & H1 & H2 & H3 & H4).
  exists task'. split; [done|].
  destruct Hcase as [->|[(a & _ & ->)|(now & a & Ha & _ & ->)]]; [done| |].
  - repeat split; intros; [apply H1|apply H2|apply H3|apply H4]; simpl; eauto.
  - repeat split; intros; [apply H1|apply H2|apply H3|apply H4]; simpl; eauto.
Qed.

Lemma task_never_requeued_witness :
  ∃ task task',
    execution_queue (run Demo.assigned) !! 0 = Some task
    ∧ execution_queue
        (run_from (run Demo.assigned)
           [CallRegister "TechnicalAgent" [] [] []; CallExecute Demo.t2 Demo.tid;
            CallAssign Demo.tid "StrategyAgent"]) !! 0 = Some task'
    ∧ task_status task' ≠ "Queued"
    ∧ is_Some (task_assigned_agent task').
Proof.
  destruct (execution_queue (run Demo.assigned) !! 0) as [task|] eqn:E;
    [|vm_compute in E; discriminate].
  assert (task_status task ≠ "Queued") as Hs
    by (vm_compute in E; injection E as <-; discriminate).
  assert (is_Some (task_assigned_agent task)) as Ha
    by (vm_compute in E; injection E as <-; eexists; reflexivity).
  destruct (task_never_requeued
              [CallRegister "TechnicalAgent" [] [] []; CallExecute Demo.t2 Demo.tid;
               CallAssign Demo.tid "StrategyAgent"]
              (run Demo.assigned) 0 task E) as (task' & H1 & H2 & H3 & _).
  exists task, task'. auto.
Defined.

(** ** The registry *)

Lemma step_agents_dom self c :
  dom (agents (step self c)) =
  dom (agents self) ∪ (match registered_name c with Some a => {[a]} | None => ∅ end).
Proof.
  destruct c as [a caps layers machines|n1 n2 ctx out|tid a|now tid]; simpl.
  - rewrite dom_insert_L. set_solver.
  - set_solver.
  - unfold assign_agent_to_task.
    destruct (agents self !! a) as [agent|] eqn:Ea; [|set_solver].
    destruct (find_task (execution_queue self) tid) as [[j found]|]; [|set_solver].
    destruct (decide (agent_status agent ≠ "Available")); [set_solver|]. simpl.
    rewrite dom_insert_lookup_L by eauto. set_solver.
  - unfold execute_task.
    destruct (find_task (execution_queue self) tid) as [[j found]|]; [|set_solver].
    destruct (task_assigned_agent found) as [a|]; [|set_solver].
    destruct (decide (a = "")); [set_solver|].
    destruct (agents self !! a) as [agent|] eqn:Ea; simpl; [|set_solver].
    rewrite dom_insert_lookup_L by eauto. set_solver.
Qed.

(** A call that does not register [name] leaves the tags stored with
    [name] as they are. *)
Lemma step_agent_tags self c name agent :
  registered_name c ≠ Some name →
  agents self !! name = Some agent →
  ∃ agent', agents (step self c) !! name = Some agent'
            ∧ agent_tags agent' = agent_tags agent.
Proof.
  intros Hc Ha.
  assert (∀ k other new,
            agents self !! k = Some other → agent_tags new = agent_tags other →
            ∃ agent', <[k := new]> (agents self) !! name = Some agent'
                      ∧ agent_tags agent' = agent_tags agent) as Hins.
  { intros k other new Hk Ht. destruct (decide (k = name)) as [->|Hne].
    - rewrite lookup_insert_eq. exists new. split; [done|]. congruence.
    - rewrite lookup_insert_ne by done. eauto. }
  destruct c as [a caps layers machines|n1 n2 ctx out|tid a|now tid]; simpl in *.
  - rewrite lookup_insert_ne by congruence. eauto.
  - eauto.
  - unfold assign_agent_to_task.
    destruct (agents self !! a) as [other|] eqn:Ea; [|eauto].
    destruct (find_task (execution_queue self) tid) as [[j found]|]; [|eauto].
    destruct (decide (agent_status other ≠ "Available")); [eauto|]. simpl.
    by eapply Hins.
  - unfold execute_task.
    destruct (find_task (execution_queue self) tid) as [[j found]|]; [|eauto].
    destruct (task_assigned_agent found) as [a|]; [|eauto].
    destruct (decide (a = "")); [eauto|].
    destruct (agents self !! a) as [other|] eqn:Ea; simpl; [|eauto].
    by eapply Hins.
Qed.

(** X5.  From any state and through any calls, the names of the registry
    are the names it had with the names the calls have registered: no call
    removes an agent, and only [register_agent] adds one.  An agent the
    calls do not register keeps its capabilities, reality layers and power
    machines. *)
Theorem registry_only_grows_by_registration (calls : list Call) : ∀ (self : Orchestrator),
  dom (agents (run_from self calls)) = dom (agents self) ∪ registered_names calls
  ∧ ∀ name agent,
      name ∉ registered_names calls →
      agents self !! name = Some agent →
      ∃ agent', agents (run_from self calls) !! name = Some agent'
                ∧ agent_tags agent' = agent_tags agent.
Proof.
  induction calls as [|c calls IH]; intros self.
  - split; [unfold registered_names; simpl; set_solver|eauto].
  - change (run_from self (c :: calls)) with (run_from (step self c) calls).
    destruct (IH (step self c)) as [Hdom Htags].
    assert (registered_names (c :: calls) =
            (match registered_name c with Some a => {[a]} | None => ∅ end)
            ∪ registered_names calls) as Hnames.
    { unfold registered_names. simpl. destruct (registered_name c); simpl; set_solver. }
    split.
    + rewrite Hdom, step_agents_dom, Hnames. set_solver.
    + intros name agent Hnot Ha. rewrite Hnames in Hnot.
      destruct (step_agent_tags self c name agent) as (mid & Hmid & Hm); [|done|].
      { intros Hc. rewrite Hc in Hnot. set_solver. }
      destruct (Htags name mid) as (agent' & Ha' & Ht); [set_solver|done|].
      exists agent'. split; [done|]. congruence.
Qed.

Lemma registry_only_grows_by_registration_witness :
  ∃ agent',
    agents (run_from (run Demo.created)
              [CallAssign Demo.tid "TechnicalAgent"; CallExecute Demo.t2 Demo.tid])
      !! "TechnicalAgent" = Some agent'
    ∧ agent_tags agent'
      = (["Technical Implementation"; "API Development"; "System Architecture"],
         [PHYSICAL; MENTAL], [TECHNOLOGY; DATA; NETWORK]).
Proof.
  destruct (agents (run Demo.created) !! "TechnicalAgent") as [agent|] eqn:E;
    [|vm_compute in E; discriminate].
  assert (agent_tags agent
          = (["Technical Implementation"; "API Development"; "System Architecture"],
             [PHYSICAL; MENTAL], [TECHNOLOGY; DATA; NETWORK])) as Ht
    by (vm_compute in E; injection E as <-; reflexivity).
  destruct (proj2 (registry_only_grows_by_registration
                     [CallAssign Demo.tid "TechnicalAgent"; CallExecute Demo.t2 Demo.tid]
                     (run Demo.created)) "TechnicalAgent" agent) as (agent' & H1 & H2).
  - unfold registered_names. simpl. apply not_elem_of_empty.
  - exact E.
  - exists agent'. split; [exact H1|]. rewrite H2. exact Ht.
Defined.

(** ** Tasks with an id already taken *)

(** X6.  In every state reachable from a fresh orchestrator, a task that
    stands in the queue behind another task with the same id is still as
    [create_execution_task] made it: "Queued", without agent, results or
    completion time.  The lookup by id stops at the first task, so no call
    ever reaches the later one. *)
Theorem later_task_with_same_id_untouched (calls : list Call) (i j : nat)
    (first later : Task) :
  execution_queue (run calls) !! i = Some first →
  execution_queue (run calls) !! j = Some later →
  i < j →
  task_id first = task_id later →
  task_status later = "Queued" ∧ task_assigned_agent later = None
  ∧ task_results later = None ∧ task_completed_at later = None.
Proof.
  revert i j first later.
  induction calls as [|c calls IH] using rev_ind; intros i j first later Hi Hj Hlt Hid.
  - cbn in Hi. by rewrite lookup_nil in Hi.
  - rewrite run_snoc in Hi, Hj.
    assert (∀ old, execution_queue (run calls) !! j = Some old →
                   ∃ before, execution_queue (run calls) !! i = Some before
                             ∧ task_id before = task_id first) as Hbefore.
    { intros old Hold.
      destruct (lookup_lt_is_Some_2 (execution_queue (run calls)) i) as [before Hb].
      { apply lookup_lt_Some in Hold. lia. }
      exists before. split; [done|].
      destruct (step_queue_keeps (run calls) c i before Hb) as (t & Ht & Hidt & _).
      congruence. }
    assert (∀ old tid, find_task (execution_queue (run calls)) tid = Some (j, old) →
                       task_id later = task_id old → False) as Hfirst.
    { intros old tid Hf Hidl. unfold find_task in Hf.
      apply list_find_Some in Hf as (Hold & Hp & Hnone).
      destruct (Hbefore old Hold) as (before & Hb & Hidb).
      apply (Hnone i before Hb Hlt). simpl in *. congruence. }
    apply step_queue_lookup_found in Hj
      as [Hj|[(n1 & n2 & ctx & out & _ & _ & ->)
             |[(old & tid & a & _ & Hf & _ & ->)
              |(old & now & tid & a & _ & Hf & _ & _ & ->)]]].
    + destruct (Hbefore later Hj) as (before & Hb & Hidb).
      apply (IH i j before later Hb Hj Hlt). congruence.
    + done.
    + destruct (Hfirst old tid Hf). done.
    + destruct (Hfirst old tid Hf). done.
Qed.

Lemma later_task_with_same_id_untouched_witness :
  ∃ first later,
    execution_queue
      (run [CallRegister "A1" ["build"] [PHYSICAL] [TECHNOLOGY];
            CallCreate Demo.t0 Demo.t0 Demo.context Demo.expected_outputs;
            CallCreate Demo.t1 Demo.t1 Demo.infra_context Demo.expected_outputs;
            CallAssign Demo.tid "A1"; CallExecute Demo.t2 Demo.tid]) !! 0 = Some first
    ∧ execution_queue
        (run [CallRegister "A1" ["build"] [PHYSICAL] [TECHNOLOGY];
              CallCreate Demo.t0 Demo.t0 Demo.context Demo.expected_outputs;
              CallCreate Demo.t1 Demo.t1 Demo.infra_context Demo.expected_outputs;
              CallAssign Demo.tid "A1"; CallExecute Demo.t2 Demo.tid]) !! 1 = Some later
    ∧ task_status first = "Completed"
    ∧ task_status later = "Queued" ∧ task_assigned_agent later = None.
Proof.
  set (calls := [CallRegister "A1" ["build"] [PHYSICAL] [TECHNOLOGY];
                 CallCreate Demo.t0 Demo.t0 Demo.context Demo.expected_outputs;
                 CallCreate Demo.t1 Demo.t1 Demo.infra_context Demo.expected_outputs;
                 CallAssign Demo.tid "A1"; CallExecute Demo.t2 Demo.tid]).
  destruct (execution_queue (run calls) !! 0) as [first|] eqn:E0;
    [|vm_compute in E0; discriminate].
  destruct (execution_queue (run calls) !! 1) as [later|] eqn:E1;
    [|vm_compute in E1; discriminate].
  assert (task_status first = "Completed") as Hs
    by (vm_compute in E0; injection E0 as <-; reflexivity).
  assert (task_id first = task_id later) as Hid
    by (vm_compute in E0; vm_compute in E1; injection E0 as <-; injection E1 as <-;
        reflexivity).
  destruct (later_task_with_same_id_untouched calls 0 1 first later E0 E1
              ltac:(lia) Hid) as (H1 & H2 & _).
  exists first, later. auto.
Defined.

(** ** What a successful call changes, and what it leaves alone *)

(** X7.  When [execute_task] finds the task, with an assigned agent of
    non-empty name that is registered, it returns the results and leaves:
    the task found "Completed", holding the returned results and the time
    of the call, its assigned agent unchanged; that agent "Available"
    without current task, whatever it was doing, its tags unchanged; every
    other agent and every other place of the queue as before. *)
Theorem execute_task_effect (self : Orchestrator) (now : datetime) (tid : string)
    (i : nat) (task : Task) (a : string) (agent : Agent) :
  find_task (execution_queue self) tid = Some (i, task) →
  task_assigned_agent task = Some a →
  a ≠ "" →
  agents self !! a = Some agent →
  ∃ results task' agent',
    (execute_task self now tid).2 = Returned (ResultsDict results)
    ∧ find_task (execution_queue (execute_task self now tid).1) tid = Some (i, task')
    ∧ task_status task' = "Completed"
    ∧ task_results task' = Some results
    ∧ task_completed_at task' = Some now
    ∧ task_assigned_agent task' = Some a
    ∧ agents (execute_task self now tid).1 !! a = Some agent'
    ∧ agent_status agent' = "Available"
    ∧ agent_current_task agent' = None
    ∧ agent_tags agent' = agent_tags agent
    ∧ (∀ b, b ≠ a → agents (execute_task self now tid).1 !! b = agents self !! b)
    ∧ (∀ j, j ≠ i →
         execution_queue (execute_task self now tid).1 !! j = execution_queue self !! j)
    ∧ length (execution_queue (execute_task self now tid).1)
      = length (execution_queue self).
Proof.
  intros Hf Ha Hne Hag. unfold execute_task. rewrite Hf, Ha.
  rewrite decide_False by done. rewrite Hag. simpl.
  destruct (find_task_Some _ _ _ _ Hf) as [Hi Hid].
  exists (task_execution_results task),
         (task_completed task (task_execution_results task) now),
         (agent_available agent).
  split; [done|]. split.
  { rewrite (find_task_insert _ i task
               (task_completed task (task_execution_results task) now)
               tid i task Hi eq_refl Hf).
    by rewrite decide_True. }
  do 4 (split; [done|]).
  split; [by rewrite lookup_insert_eq|].
  do 3 (split; [done|]).
  split; [intros b Hb; by rewrite lookup_insert_ne|].
  split; [intros j Hj; by rewrite list_lookup_insert_ne|].
  by rewrite length_insert.
Qed.

Lemma execute_task_effect_witness :
  ∃ results task' agent',
    (execute_task (run Demo.assigned) Demo.t2 Demo.tid).2 = Returned (ResultsDict results)
    ∧ find_task (execution_queue (execute_task (run Demo.assigned) Demo.t2 Demo.tid).1)
        Demo.tid = Some (0, task')
    ∧ task_status task' = "Completed"
    ∧ task_results task' = Some results
    ∧ agents (execute_task (run Demo.assigned) Demo.t2 Demo.tid).1 !! "TechnicalAgent"
      = Some agent'
    ∧ agent_status agent' = "Available".
Proof.
  destruct (find_task (execution_queue (run Demo.assigned)) Demo.tid) as [[i task]|] eqn:Ef;
    [|vm_compute in Ef; discriminate].
  assert (i = 0) as -> by (vm_compute in Ef; injection Ef as <- _; reflexivity).
  assert (task_assigned_agent task = Some "TechnicalAgent") as Ha
    by (vm_compute in Ef; injection Ef as <-; reflexivity).
  destruct (agents (run Demo.assigned) !! "TechnicalAgent") as [agent|] eqn:Eg;
    [|vm_compute in Eg; discriminate].
  destruct (execute_task_effect (run Demo.assigned) Demo.t2 Demo.tid 0 task
              "TechnicalAgent" agent Ef Ha ltac:(discriminate) Eg)
    as (results & task' & agent' & H1 & H2 & H3 & H4 & _ & _ & H5 & H6 & _).
  exists results, task', agent'. auto 10.
Defined.

(** X8.  An agent may be registered under the empty name and a task
    assigned to it, but [execute_task] then takes the task for unassigned:
    it returns the dict with error "No agent assigned" and changes
    nothing, so the task stays "In Progress" and the agent "Busy". *)
Theorem execute_task_empty_agent_name (self : Orchestrator) (now : datetime) (tid : string) :
  (assign_agent_to_task self tid "").2 = true →
  execute_task (assign_agent_to_task self tid "").1 now tid
  = ((assign_agent_to_task self tid "").1, Returned (ErrorDict "No agent assigned"))
  ∧ busy "" (assign_agent_to_task self tid "").1.
Proof.
  intros Hok.
  destruct (assign_agent_to_task_success self tid "" Hok)
    as (agent' & i & task' & Hag & Hs & _ & Hf & Ha & _).
  split; [|by exists agent'].
  unfold execute_task. by rewrite Hf, Ha.
Qed.

Lemma execute_task_empty_agent_name_witness :
  execute_task
    (assign_agent_to_task
       (run [CallRegister "" ["build"] [PHYSICAL] [TECHNOLOGY];
             CallCreate Demo.t0 Demo.t0 Demo.context Demo.expected_outputs])
       Demo.tid "").1 Demo.t2 Demo.tid
  = ((assign_agent_to_task
        (run [CallRegister "" ["build"] [PHYSICAL] [TECHNOLOGY];
              CallCreate Demo.t0 Demo.t0 Demo.context Demo.expected_outputs])
        Demo.tid "").1,
     Returned (ErrorDict "No agent assigned")).
Proof.
  apply (execute_task_empty_agent_name
           (run [CallRegister "" ["build"] [PHYSICAL] [TECHNOLOGY];
                 CallCreate Demo.t0 Demo.t0 Demo.context Demo.expected_outputs])).
  vm_compute. reflexivity.
Defined.

(** X9.  In every state reachable from a fresh orchestrator
    [execute_task] raises nothing, and what it returns tells the three
    cases apart: "Task not found" exactly when no task has the id, "No
    agent assigned" exactly when the first task with the id has no agent
    or the agent of empty name, and the results otherwise. *)
Theorem execute_task_outcomes (calls : list Call) (now : datetime) (tid : string) :
  ((execute_task (run calls) now tid).2 = Returned (ErrorDict "Task not found")
   ∧ find_task (execution_queue (run calls)) tid = None)
  ∨ ((execute_task (run calls) now tid).2 = Returned (ErrorDict "No agent assigned")
     ∧ ∃ i task, find_task (execution_queue (run calls)) tid = Some (i, task)
                 ∧ (task_assigned_agent task = None ∨ task_assigned_agent task = Some ""))
  ∨ (∃ i task a,
       (execute_task (run calls) now tid).2
         = Returned (ResultsDict (task_execution_results task))
       ∧ find_task (execution_queue (run calls)) tid = Some (i, task)
       ∧ task_assigned_agent task = Some a ∧ a ≠ "").
Proof.
  unfold execute_task.
  destruct (find_task (execution_queue (run calls)) tid) as [[i task]|] eqn:Ef; [|auto].
  destruct (task_assigned_agent task) as [a|] eqn:Ea; [|right; left; eauto 10].
  destruct (decide (a = "")) as [->|Hne]; [right; left; eauto 10|].
  right; right. exists i, task, a.
  destruct (run_assigned_registered calls task a) as [agent Hag]; [|done|].
  - apply find_task_Some in Ef as [Hi _]. apply list_elem_of_lookup. eauto.
  - by rewrite Hag.
Qed.

(** X10.  A successful [assign_agent_to_task] rewrites two dicts only: of
    the agent it keeps the tags, of the task found it keeps every key but
    status and assigned agent (id, context, expected outputs, creation
    time, progress, results, completion time), and every other agent,
    every other place of the queue and the length of the queue are as
    before. *)
Theorem assign_agent_to_task_frame (self : Orchestrator) (tid a : string) :
  (assign_agent_to_task self tid a).2 = true →
  ∃ agent agent' i task task',
    agents self !! a = Some agent
    ∧ agents (assign_agent_to_task self tid a).1 !! a = Some agent'
    ∧ agent_tags agent' = agent_tags agent
    ∧ find_task (execution_queue self) tid = Some (i, task)
    ∧ execution_queue (assign_agent_to_task self tid a).1 !! i = Some task'
    ∧ task_id task' = task_id task
    ∧ task_context task' = task_context task
    ∧ task_expected_outputs task' = task_expected_outputs task
    ∧ task_created_at task' = task_created_at task
    ∧ task_progress task' = task_progress task
    ∧ task_results task' = task_results task
    ∧ task_completed_at task' = task_completed_at task
    ∧ (∀ b, b ≠ a → agents (assign_agent_to_task self tid a).1 !! b = agents self !! b)
    ∧ (∀ j, j ≠ i →
         execution_queue (assign_agent_to_task self tid a).1 !! j
         = execution_queue self !! j)
    ∧ length (execution_queue (assign_agent_to_task self tid a).1)
      = length (execution_queue self).
Proof.
  unfold assign_agent_to_task.
  destruct (agents self !! a) as [agent|]; [|done].
  destruct (find_task (execution_queue self) tid) as [[i task]|] eqn:Ef; [|done].
  destruct (decide (agent_status agent ≠ "Available")); [done|]. simpl. intros _.
  destruct (find_task_Some _ _ _ _ Ef) as [Hi _].
  exists agent, (agent_busy agent tid), i, task, (task_assigned task a).
  split; [done|]. split; [by rewrite lookup_insert_eq|]. split; [done|].
  split; [done|].
  split; [apply list_lookup_insert_eq; by eapply lookup_lt_Some|].
  do 7 (split; [done|]).
  split; [intros b Hb; by rewrite lookup_insert_ne|].
  split; [intros j Hj; by rewrite list_lookup_insert_ne|].
  by rewrite length_insert.
Qed.

Lemma assign_agent_to_task_frame_witness :
  ∃ agent agent',
    agents (run Demo.created) !! "TechnicalAgent" = Some agent
    ∧ agents (assign_agent_to_task (run Demo.created) Demo.tid "TechnicalAgent").1
        !! "TechnicalAgent" = Some agent'
    ∧ agent_tags agent' = agent_tags agent
    ∧ agents (assign_agent_to_task (run Demo.created) Demo.tid "TechnicalAgent").1
        !! "StrategyAgent" = agents (run Demo.created) !! "StrategyAgent".
Proof.
  destruct (assign_agent_to_task_frame (run Demo.created) Demo.tid "TechnicalAgent")
    as (agent & agent' & i & task & task' & H1 & H2 & H3 & _ & _ & _ & _ & _ & _ & _ & _
        & _ & Hframe & _).
  - vm_compute. reflexivity.
  - exists agent, agent'. split; [exact H1|]. split; [exact H2|]. split; [exact H3|].
    apply Hframe. discriminate.
Defined.

(** ** How calls compose *)

Lemma task_execution_results_completed task results now :
  task_execution_results (task_completed task results now) = task_execution_results task.
Proof. done. Qed.

(** X11.  Executing a task again overwrites the first execution: from any
    state, the state and the outcome after two calls of [execute_task] on
    one id are those of the second call alone.  Only the completion time
    of a task tells how often, and when last, it was executed. *)
Theorem execute_task_twice (self : Orchestrator) (now now' : datetime) (tid : string) :
  execute_task (execute_task self now tid).1 now' tid = execute_task self now' tid.
Proof.
  unfold execute_task at 2.
  destruct (find_task (execution_queue self) tid) as [[i task]|] eqn:Ef; [|done].
  destruct (task_assigned_agent task) as [a|] eqn:Ea; [|done].
  destruct (decide (a = "")) as [|Hne]; [done|].
  destruct (find_task_Some _ _ _ _ Ef) as [Hi _].
  pose proof (find_task_insert _ i task
                (task_completed task (task_execution_results task) now)
                tid i task Hi eq_refl Ef) as Hf'.
  rewrite decide_True in Hf' by done.
  unfold execute_task.
  destruct (agents self !! a) as [agent|] eqn:Eg; simpl; rewrite Hf', Ef; simpl;
    rewrite Ea, !decide_False by done; simpl.
  - rewrite lookup_insert_eq, Eg. simpl.
    by rewrite insert_insert_eq, list_insert_insert_eq.
  - rewrite Eg. by rewrite list_insert_insert_eq.
Qed.

(** X12.  Registering a busy agent anew releases it without a word to its
    task: after a successful assignment of [tid] to [a] and a new
    registration of [a], the task found under [tid] still is "In Progress"
    with [a] as assigned agent, while [a] is "Available" without current
    task and accepts any task of the queue. *)
Theorem reregistration_releases_agent (self : Orchestrator) (tid a : string)
    (capabilities : list string) (reality_layers : list RealityLayer)
    (power_machines : list PowerMachine) (tid2 : string) :
  (assign_agent_to_task self tid a).2 = true →
  (∃ task2, task2 ∈ execution_queue self ∧ task_id task2 = tid2) →
  ∃ i task agent,
    find_task
      (execution_queue
         (register_agent (assign_agent_to_task self tid a).1 a
            capabilities reality_layers power_machines)) tid = Some (i, task)
    ∧ task_status task = "In Progress"
    ∧ task_assigned_agent task = Some a
    ∧ agents
        (register_agent (assign_agent_to_task self tid a).1 a
           capabilities reality_layers power_machines) !! a = Some agent
    ∧ agent_status agent = "Available"
    ∧ agent_current_task agent = None
    ∧ (assign_agent_to_task
         (register_agent (assign_agent_to_task self tid a).1 a
            capabilities reality_layers power_machines) tid2 a).2 = true.
Proof.
  intros Hok Hex.
  destruct (assign_agent_to_task_success self tid a Hok)
    as (_ & i & task & _ & _ & _ & Hf & Ha & Hs).
  exists i, task,
    {| agent_capabilities := capabilities; agent_reality_layers := reality_layers;
       agent_power_machines := power_machines; agent_status := "Available";
       agent_current_task := None |}.
  simpl. split; [done|]. do 2 (split; [done|]).
  split; [by rewrite lookup_insert_eq|]. do 2 (split; [done|]).
  apply assign_agent_to_task_true_iff. simpl. split.
  - apply (run_from_keeps_task_id [CallAssign tid a] tid2 self Hex).
  - eexists. by rewrite lookup_insert_eq.
Qed.

Lemma reregistration_releases_agent_witness :
  (assign_agent_to_task
     (register_agent
        (assign_agent_to_task (run Demo.created) Demo.tid "TechnicalAgent").1
        "TechnicalAgent" [] [] []) Demo.tid "TechnicalAgent").2 = true.
Proof.
  destruct (reregistration_releases_agent (run Demo.created) Demo.tid "TechnicalAgent"
              [] [] [] Demo.tid) as (i & task & agent & _ & _ & _ & _ & _ & _ & H).
  - vm_compute. reflexivity.
  - apply find_task_is_Some. vm_compute. eexists. reflexivity.
  - exact H.
Defined.

(** X13.  [create_execution_task] appends and touches nothing else.  The
    task it appends is the one found under the returned id when no earlier
    task has that id; when one has, the lookup still gives the earlier
    task.  The lookup of any other id is as before. *)
Theorem create_execution_task_lookup (self : Orchestrator) (now_id now_created : datetime)
    (context : AgentExecutionContext) (expected_outputs : AgentExecutionOutput) :
  agents (create_execution_task self now_id now_created context expected_outputs).1
    = agents self
  ∧ execution_queue
      (create_execution_task self now_id now_created context expected_outputs).1
    = (execution_queue self
       ++ [new_task
             (create_execution_task self now_id now_created context expected_outputs).2
             context expected_outputs now_created])%list
  ∧ (find_task (execution_queue self)
       (create_execution_task self now_id now_created context expected_outputs).2 = None →
     find_task
       (execution_queue
          (create_execution_task self now_id now_created context expected_outputs).1)
       (create_execution_task self now_id now_created context expected_outputs).2
     = Some (length (execution_queue self),
             new_task
               (create_execution_task self now_id now_created context expected_outputs).2
               context expected_outputs now_created))
  ∧ (∀ tid found,
       find_task (execution_queue self) tid = Some found →
       find_task
         (execution_queue
            (create_execution_task self now_id now_created context expected_outputs).1)
         tid = Some found)
  ∧ (∀ tid,
       tid ≠ (create_execution_task self now_id now_created context expected_outputs).2 →
       find_task
         (execution_queue
            (create_execution_task self now_id now_created context expected_outputs).1)
         tid = find_task (execution_queue self) tid).
Proof.
  simpl. split; [done|]. split; [done|]. unfold find_task. split; [|split].
  - intros Hnone. rewrite list_find_app_r by done. simpl.
    by rewrite decide_True.
  - intros tid [i task] Hf. by apply list_find_app_l.
  - intros tid Hne.
    destruct (list_find (λ t, task_id t = tid) (execution_queue self)) as [[i task]|] eqn:Ef.
    + by apply list_find_app_l.
    + rewrite list_find_app_r by done. simpl. by rewrite decide_False.
Qed.

Lemma create_execution_task_lookup_witness :
  find_task
    (execution_queue
       (create_execution_task (run Demo.registrations) Demo.t0 Demo.t1
          Demo.context Demo.expected_outputs).1) Demo.tid
  = Some (0, new_task Demo.tid Demo.context Demo.expected_outputs Demo.t1).
Proof.
  apply (proj1 (proj2 (proj2
    (create_execution_task_lookup (run Demo.registrations) Demo.t0 Demo.t1
       Demo.context Demo.expected_outputs)))).
  vm_compute. reflexivity.
Defined.

(** ** Identifiers and the clock *)

Lemma string_app_inj_length (s1 s2 t1 t2 : string) :
  String.length s1 = String.length s2 →
  s1 +:+ t1 = s2 +:+ t2 → s1 = s2 ∧ t1 = t2.
Proof.
  revert s2. induction s1 as [|c s1 IH]; intros [|c2 s2] Hlen Heq; try done.
  simpl in *. injection Heq as -> Heq. injection Hlen as Hlen.
  destruct (IH s2 Hlen Heq) as [-> ->]. done.
Qed.

(** A printed field has its full width and reads back as the number. *)
Lemma zero_pad_2 n :
  n < 100 → String.length (Str.zero_pad 2 n) = 2 ∧ parse_digits 0 (Str.zero_pad 2 n) = n.
Proof.
  intros Hn.
  assert (forallb (λ k, Nat.eqb (String.length (Str.zero_pad 2 k)) 2
                        && Nat.eqb (parse_digits 0 (Str.zero_pad 2 k)) k) (seq 0 100) = true)
    as Hall by (vm_compute; reflexivity).
  rewrite forallb_forall in Hall.
  specialize (Hall n ltac:(apply in_seq; lia)).
  apply andb_true_iff in Hall as [H1 H2].
  by apply Nat.eqb_eq in H1, H2.
Qed.

(** A year of four digits is printed as it is. *)
Lemma pretty_length_4 (n : nat) :
  1000 ≤ n < 10 * 1000 → String.length (pretty n) = 4.
Proof.
  intros Hn. unfold pretty, pretty_nat, pretty, pretty_N.
  set (x := N.of_nat n).
  assert (1000 ≤ x < 10000)%N as Hx by lia.
  rewrite decide_False by lia.
  assert (0 < x `div` 10)%N by (apply N.div_str_pos; lia).
  assert (0 < (x `div` 10) `div` 10)%N.
  { apply N.div_str_pos. split; [lia|]. apply N.div_le_lower_bound; lia. }
  assert (0 < ((x `div` 10) `div` 10) `div` 10)%N.
  { apply N.div_str_pos. split; [lia|].
    apply N.div_le_lower_bound; [lia|]. apply N.div_le_lower_bound; lia. }
  assert ((((x `div` 10) `div` 10) `div` 10) `div` 10 = 0)%N as Hz.
  { apply N.div_small. apply N.Div0.div_lt_upper_bound.
    apply N.Div0.div_lt_upper_bound. apply N.Div0.div_lt_upper_bound. lia. }
  rewrite 4!pretty_N_go_step by (done || lia).
  rewrite Hz, pretty_N_go_0. reflexivity.
Qed.

Lemma zero_pad_4 n :
  1000 ≤ n < 10 * 1000 →
  String.length (Str.zero_pad 4 n) = 4 ∧ Str.zero_pad 4 n = pretty n.
Proof.
  intros Hn. unfold Str.zero_pad. rewrite (pretty_length_4 n Hn).
  change (Str.zeros (4 - 4) +:+ pretty n) with (pretty n).
  split; [by apply pretty_length_4|done].
Qed.

Lemma zero_pad_2_inj n m :
  n < 100 → m < 100 → Str.zero_pad 2 n = Str.zero_pad 2 m → n = m.
Proof.
  intros Hn Hm Heq.
  rewrite <- (proj2 (zero_pad_2 n Hn)), <- (proj2 (zero_pad_2 m Hm)). by rewrite Heq.
Qed.

(** The printed form determines the six printed fields. *)
Lemma strftime_Ymd_HMS_inj d1 d2 :
  printable d1 → printable d2 →
  strftime_Ymd_HMS d1 = strftime_Ymd_HMS d2 → to_the_second d1 = to_the_second d2.
Proof.
  intros (Hy1 & Hmo1 & Hd1 & Hh1 & Hmi1 & Hs1) (Hy2 & Hmo2 & Hd2 & Hh2 & Hmi2 & Hs2).
  unfold strftime_Ymd_HMS, to_the_second. intros Heq.
  apply string_app_inj_length in Heq as [Hy Heq];
    [|by rewrite (proj1 (zero_pad_4 _ Hy1)), (proj1 (zero_pad_4 _ Hy2))].
  apply string_app_inj_length in Heq as [Hmo Heq];
    [|by rewrite (proj1 (zero_pad_2 _ Hmo1)), (proj1 (zero_pad_2 _ Hmo2))].
  apply string_app_inj_length in Heq as [Hd Heq];
    [|by rewrite (proj1 (zero_pad_2 _ Hd1)), (proj1 (zero_pad_2 _ Hd2))].
  apply (string_app_inj_length "_" "_") in Heq as [_ Heq]; [|done].
  apply string_app_inj_length in Heq as [Hh Heq];
    [|by rewrite (proj1 (zero_pad_2 _ Hh1)), (proj1 (zero_pad_2 _ Hh2))].
  apply string_app_inj_length in Heq as [Hmi Hs];
    [|by rewrite (proj1 (zero_pad_2 _ Hmi1)), (proj1 (zero_pad_2 _ Hmi2))].
  rewrite (proj2 (zero_pad_4 _ Hy1)), (proj2 (zero_pad_4 _ Hy2)) in Hy.
  apply (inj pretty) in Hy. rewrite Hy.
  by rewrite (zero_pad_2_inj _ _ Hmo1 Hmo2 Hmo), (zero_pad_2_inj _ _ Hd1 Hd2 Hd),
             (zero_pad_2_inj _ _ Hh1 Hh2 Hh), (zero_pad_2_inj _ _ Hmi1 Hmi2 Hmi),
             (zero_pad_2_inj _ _ Hs1 Hs2 Hs).
Qed.

(** X14.  For clock readings with a four-digit year, two calls of
    [create_execution_task] return the same identifier exactly when the
    readings agree to the second: readings a second or more apart give
    distinct identifiers, readings within one second give the same,
    whatever the state, the context and the microseconds. *)
Theorem create_execution_task_ids (self self' : Orchestrator)
    (d1 c1 d2 c2 : datetime) (ctx1 ctx2 : AgentExecutionContext)
    (out1 out2 : AgentExecutionOutput) :
  printable d1 → printable d2 →
  ((create_execution_task self d1 c1 ctx1 out1).2
   = (create_execution_task self' d2 c2 ctx2 out2).2
   ↔ to_the_second d1 = to_the_second d2).
Proof.
  intros Hp1 Hp2. simpl. split.
  - intros Heq. apply strftime_Ymd_HMS_inj; [done..|].
    by apply (string_app_inj_length "task_" "task_") in Heq as [_ Heq].
  - unfold to_the_second, strftime_Ymd_HMS. intros Heq.
    injection Heq as -> -> -> -> -> ->. done.
Qed.

Lemma create_execution_task_ids_witness :
  (create_execution_task init Demo.t0 Demo.t0 Demo.context Demo.expected_outputs).2
  ≠ (create_execution_task
       (create_execution_task init Demo.t0 Demo.t0 Demo.context Demo.expected_outputs).1
       Demo.t2 Demo.t2 Demo.context Demo.expected_outputs).2.
Proof.
  intros Heq.
  apply (create_execution_task_ids init
           (create_execution_task init Demo.t0 Demo.t0
              Demo.context Demo.expected_outputs).1
           Demo.t0 Demo.t0 Demo.t2 Demo.t2) in Heq.
  - discriminate Heq.
  - unfold printable. simpl. lia.
  - unfold printable. simpl. lia.
Defined.

(** ** Keywords and thresholds of the estimators *)

Lemma append_cons (c : Ascii.ascii) (s t : string) :
  String c s +:+ t = String c (s +:+ t).
Proof. reflexivity. Qed.

Lemma prefix_nil (s : string) : String.prefix "" s = true.
Proof. by destruct s. Qed.

Lemma prefix_cons (a b : Ascii.ascii) (s t : string) :
  String.prefix (String a s) (String b t)
  = if Ascii.ascii_dec a b then String.prefix s t else false.
Proof. reflexivity. Qed.

Lemma contains_cons (needle : string) (c : Ascii.ascii) (hay : string) :
  Str.contains needle (String c hay)
  = String.prefix needle (String c hay) || Str.contains needle hay.
Proof. reflexivity. Qed.

Lemma lower_app (s1 s2 : string) :
  Str.lower (s1 +:+ s2) = Str.lower s1 +:+ Str.lower s2.
Proof.
  induction s1 as [|c s1 IH]; [reflexivity|].
  rewrite append_cons. simpl Str.lower. by rewrite IH, append_cons.
Qed.

Lemma prefix_app (needle rest : string) : String.prefix needle (needle +:+ rest) = true.
Proof.
  induction needle as [|c needle IH]; [apply prefix_nil|].
  rewrite append_cons, prefix_cons. by destruct (Ascii.ascii_dec c c).
Qed.

Lemma contains_app (pre needle post : string) :
  Str.contains needle (pre +:+ needle +:+ post) = true.
Proof.
  induction pre as [|c pre IH].
  - change ("" +:+ needle +:+ post) with (needle +:+ post).
    destruct (needle +:+ post) as [|c rest] eqn:E.
    + destruct needle; [reflexivity|discriminate E].
    + rewrite contains_cons, <- E, prefix_app. reflexivity.
  - rewrite append_cons, contains_cons, IH. apply orb_true_r.
Qed.

(** Every match of [needle in hay] is an occurrence of [needle]. *)
Lemma contains_occurrence (needle hay : string) :
  Str.contains needle hay = true → ∃ pre post, hay = pre +:+ needle +:+ post.
Proof.
  assert (∀ s2 s1, String.prefix s1 s2 = true → ∃ post, s2 = s1 +:+ post) as Hprefix.
  { induction s2 as [|c2 s2 IH]; intros [|c s1] H.
    - by exists "".
    - done.
    - by exists (String c2 s2).
    - rewrite prefix_cons in H. destruct (Ascii.ascii_dec c c2) as [->|]; [|done].
    destruct (IH s1 H) as [post ->]. by exists post. }
  induction hay as [|c hay IH]; intros H.
  - destruct needle; [by exists "", ""|done].
  - rewrite contains_cons in H. apply orb_true_iff in H as [H|H].
    + destruct (Hprefix _ _ H) as [post Hp]. by exists "", post.
    + destruct (IH H) as (pre & post & ->). by exists (String c pre), post.
Qed.

(** X15.  The keyword tests see through capitals and position: a business
    focus with "credit repair" anywhere in it, in any mix of upper and
    lower case, is valued "$50K-100K monthly revenue potential"; a timing
    constraint with "30-day" anywhere gets the "High" timing label; a
    resource hint with "high" anywhere gets the "High" energy label. *)
Theorem first_keyword_found_anywhere (context : AgentExecutionContext)
    (pre keyword post : string) :
  (current_business_focus context = pre +:+ keyword +:+ post →
   Str.lower keyword = "credit repair" →
   _calculate_business_value context = "$50K-100K monthly revenue potential")
  ∧ (temporal_constraints context = pre +:+ keyword +:+ post →
     Str.lower keyword = "30-day" →
     _calculate_temporal_optimization context = "High - Rapid implementation timeline")
  ∧ (energy_resources context = pre +:+ keyword +:+ post →
     Str.lower keyword = "high" →
     _calculate_energy_efficiency context = "High - Maximum energy utilization").
Proof.
  split; [|split]; intros Htext Hkw.
  - unfold _calculate_business_value.
    by rewrite Htext, !lower_app, Hkw, contains_app.
  - unfold _calculate_temporal_optimization.
    by rewrite Htext, !lower_app, Hkw, contains_app.
  - unfold _calculate_energy_efficiency.
    by rewrite Htext, !lower_app, Hkw, contains_app.
Qed.

Lemma first_keyword_found_anywhere_witness :
  _calculate_business_value Demo.context = "$50K-100K monthly revenue potential"
  ∧ _calculate_energy_efficiency Demo.context = "High - Maximum energy utilization".
Proof.
  split.
  - apply (proj1 (first_keyword_found_anywhere Demo.context "" "Credit Repair" " Service"));
      reflexivity.
  - apply (proj2 (proj2 (first_keyword_found_anywhere Demo.context
                           "" "High" " technical resources available"))); reflexivity.
Defined.

(** X16.  The default answers are given only in the absence of every
    keyword: when business value is "$10K-50K monthly revenue potential",
    the timing label "Low" or the energy label "Low", the lower-cased text
    contains none of the keywords of that estimator. *)
Theorem default_means_no_keyword (context : AgentExecutionContext) :
  (_calculate_business_value context = "$10K-50K monthly revenue potential" →
   ∀ keyword pre post,
     keyword ∈ ["credit repair"; "real estate"; "ai automation"] →
     Str.lower (current_business_focus context) ≠ pre +:+ keyword +:+ post)
  ∧ (_calculate_temporal_optimization context = "Low - Extended implementation timeline" →
     ∀ keyword pre post,
       keyword ∈ ["30-day"; "90-day"] →
       Str.lower (temporal_constraints context) ≠ pre +:+ keyword +:+ post)
  ∧ (_calculate_energy_efficiency context = "Low - Minimal energy utilization" →
     ∀ keyword pre post,
       keyword ∈ ["high"; "medium"] →
       Str.lower (energy_resources context) ≠ pre +:+ keyword +:+ post).
Proof.
  split; [|split].
  - unfold _calculate_business_value. intros Hv keyword pre post Hk Htext.
    destruct (Str.contains "credit repair" _) eqn:E1; [discriminate|].
    destruct (Str.contains "real estate" _) eqn:E2; [discriminate|].
    destruct (Str.contains "ai automation" _) eqn:E3; [discriminate|].
    rewrite Htext in E1, E2, E3.
    repeat (apply elem_of_cons in Hk as [->|Hk];
            [first [rewrite contains_app in E1|rewrite contains_app in E2
                   |rewrite contains_app in E3]; discriminate|]).
    by apply elem_of_nil in Hk.
  - unfold _calculate_temporal_optimization. intros Hv keyword pre post Hk Htext.
    destruct (Str.contains "30-day" _) eqn:E1; [discriminate|].
    destruct (Str.contains "90-day" _) eqn:E2; [discriminate|].
    rewrite Htext in E1, E2.
    repeat (apply elem_of_cons in Hk as [->|Hk];
            [first [rewrite contains_app in E1|rewrite contains_app in E2];
             discriminate|]).
    by apply elem_of_nil in Hk.
  - unfold _calculate_energy_efficiency. intros Hv keyword pre post Hk Htext.
    destruct (Str.contains "high" _) eqn:E1; [discriminate|].
    destruct (Str.contains "medium" _) eqn:E2; [discriminate|].
    rewrite Htext in E1, E2.
    repeat (apply elem_of_cons in Hk as [->|Hk];
            [first [rewrite contains_app in E1|rewrite contains_app in E2];
             discriminate|]).
    by apply elem_of_nil in Hk.
Qed.

Lemma default_means_no_keyword_witness :
  Str.lower (energy_resources
               {| target_volume := "infra"; target_section := "deploy";
                  current_business_focus := "Payments API";
                  current_reality_layer := PHYSICAL;
                  temporal_constraints := "next year";
                  energy_resources := "Two engineers";
                  priority := "Medium" |})
  ≠ "two engineers, " +:+ "medium" +:+ " budget".
Proof.
  apply (proj2 (proj2 (default_means_no_keyword
           {| target_volume := "infra"; target_section := "deploy";
              current_business_focus := "Payments API";
              current_reality_layer := PHYSICAL;
              temporal_constraints := "next year";
              energy_resources := "Two engineers";
              priority := "Medium" |}))).
  - reflexivity.
  - apply list_elem_of_further, list_elem_of_here.
Defined.

(** X17.  The impact label as the reality layer and the length of the
    business focus decide it: the layers CELESTIAL and DIVINE always give
    "High", ASTRAL and ETHERIC never give "Low", and at a fixed layer a
    longer focus never gives a lower label. *)
Theorem impact_by_layer_and_length (context : AgentExecutionContext) :
  (current_reality_layer context ∈ [CELESTIAL; DIVINE] →
   _calculate_cross_dimensional_impact context
   = "High - Significant cross-dimensional optimization achieved")
  ∧ (current_reality_layer context ∈ [ASTRAL; ETHERIC] →
     _calculate_cross_dimensional_impact context
     ≠ "Low - Limited cross-dimensional impact")
  ∧ (∀ context',
       current_reality_layer context' = current_reality_layer context →
       (Str.len (current_business_focus context)
        ≤ Str.len (current_business_focus context'))%Z →
       (_calculate_cross_dimensional_impact context
        = "High - Significant cross-dimensional optimization achieved" →
        _calculate_cross_dimensional_impact context'
        = "High - Significant cross-dimensional optimization achieved")
       ∧ (_calculate_cross_dimensional_impact context'
          = "Low - Limited cross-dimensional impact" →
          _calculate_cross_dimensional_impact context
          = "Low - Limited cross-dimensional impact")).
Proof.
  assert (0 ≤ Str.len (current_business_focus context))%Z as Hlen
    by (unfold Str.len; lia).
  unfold _calculate_cross_dimensional_impact. split; [|split].
  - intros Hl.
    assert (6 ≤ RealityLayer_value (current_reality_layer context))%Z as Hv.
    { apply elem_of_cons in Hl as [->|Hl]; [simpl; lia|].
      apply elem_of_cons in Hl as [->|Hl]; [simpl; lia|]. by apply elem_of_nil in Hl. }
    by rewrite (proj2 (Z.ltb_lt 50 _)) by lia.
  - intros Hl.
    assert (4 ≤ RealityLayer_value (current_reality_layer context))%Z as Hv.
    { apply elem_of_cons in Hl as [->|Hl]; [simpl; lia|].
      apply elem_of_cons in Hl as [->|Hl]; [simpl; lia|]. by apply elem_of_nil in Hl. }
    destruct (50 <? _)%Z; [done|].
    by rewrite (proj2 (Z.ltb_lt 30 _)) by lia.
  - intros context' Hlayer Hle. rewrite Hlayer.
    destruct (Z.ltb_spec 50 (RealityLayer_value (current_reality_layer context) * 10
                             + Str.len (current_business_focus context)));
      destruct (Z.ltb_spec 30 (RealityLayer_value (current_reality_layer context) * 10
                               + Str.len (current_business_focus context)));
      destruct (Z.ltb_spec 50 (RealityLayer_value (current_reality_layer context) * 10
                               + Str.len (current_business_focus context')));
      destruct (Z.ltb_spec 30 (RealityLayer_value (current_reality_layer context) * 10
                               + Str.len (current_business_focus context')));
      split; intros; try done; lia.
Qed.

Lemma impact_by_layer_and_length_witness :
  _calculate_cross_dimensional_impact
    {| target_volume := "Volume_3"; target_section := "7.0";
       current_business_focus := ""; current_reality_layer := DIVINE;
       temporal_constraints := ""; energy_resources := ""; priority := "Low" |}
  = "High - Significant cross-dimensional optimization achieved".
Proof.
  apply (proj1 (impact_by_layer_and_length
           {| target_volume := "Volume_3"; target_section := "7.0";
              current_business_focus := ""; current_reality_layer := DIVINE;
              temporal_constraints := ""; energy_resources := ""; priority := "Low" |})).
  apply list_elem_of_further, list_elem_of_here.
Defined.

(** ** The dispatcher of line 173 *)

Lemma dict_get_absent {V : Type} (plans : list (string * V)) (key : string) (default : V) :
  key ∉ plans.*1 → dict_get plans key default = default.
Proof.
  induction plans as [|[k v] plans IH]; simpl; intros Hk; [done|].
  rewrite decide_False by (intros ->; apply Hk, list_elem_of_here).
  apply IH. intros Hin. apply Hk. by apply list_elem_of_further.
Qed.

(** X18.  The function defined at line 173 under the name
    [_generate_execution_plan] is a catalog lookup.  A volume outside
    "Volume_1" .. "Volume_7" gives the generic plan of the section; so
    does "Volume_1" with a section other than "1.0", "2.0", "3.0", and
    "Volume_2" with a section other than "4.0", "5.0", "6.0"; for
    "Volume_3" .. "Volume_7" the plan is that of the volume, whatever the
    section. *)
Theorem dispatcher_line_173_catalog (context : AgentExecutionContext)
    (expected_outputs : AgentExecutionOutput) :
  (target_volume context ∉
     ["Volume_1"; "Volume_2"; "Volume_3"; "Volume_4"; "Volume_5"; "Volume_6"; "Volume_7"] →
   _generate_execution_plan_line_173 context expected_outputs
   = _generate_generic_plan (target_section context) context)
  ∧ (target_volume context = "Volume_1" →
     target_section context ∉ ["1.0"; "2.0"; "3.0"] →
     _generate_execution_plan_line_173 context expected_outputs
     = _generate_generic_plan (target_section context) context)
  ∧ (target_volume context = "Volume_2" →
     target_section context ∉ ["4.0"; "5.0"; "6.0"] →
     _generate_execution_plan_line_173 context expected_outputs
     = _generate_generic_plan (target_section context) context)
  ∧ (∀ context' expected_outputs',
       target_volume context' = target_volume context →
       target_volume context ∈
         ["Volume_3"; "Volume_4"; "Volume_5"; "Volume_6"; "Volume_7"] →
       _generate_execution_plan_line_173 context' expected_outputs'
       = _generate_execution_plan_line_173 context expected_outputs)
  ∧ plan_focus (_generate_generic_plan (target_section context) context)
    = "Generic Implementation for " +:+ target_section context.
Proof.
  split; [|split; [|split; [|split]]].
  - intros Hv. unfold _generate_execution_plan_line_173.
    repeat (rewrite decide_False;
            [|intros Heq; apply Hv; rewrite Heq;
              repeat (first [apply list_elem_of_here|apply list_elem_of_further])]).
    done.
  - intros Hv Hs. unfold _generate_execution_plan_line_173, _generate_foundational_plan.
    rewrite Hv, decide_True by done. cbv zeta. apply dict_get_absent. exact Hs.
  - intros Hv Hs. unfold _generate_execution_plan_line_173, _generate_technical_plan.
    rewrite Hv, decide_False, decide_True by done. cbv zeta.
    apply dict_get_absent. exact Hs.
  - intros context' expected_outputs' Hsame Hv.
    unfold _generate_execution_plan_line_173. rewrite Hsame.
    repeat (apply elem_of_cons in Hv as [->|Hv]; [done|]).
    by apply elem_of_nil in Hv.
  - done.
Qed.

Lemma dispatcher_line_173_catalog_witness :
  _generate_execution_plan_line_173 Demo.context Demo.expected_outputs
  = _generate_generic_plan "4.3" Demo.context
  ∧ _generate_execution_plan_line_173 Demo.infra_context Demo.expected_outputs
    = _generate_generic_plan "deploy" Demo.infra_context.
Proof.
  split.
  - apply (proj1 (proj2 (proj2
      (dispatcher_line_173_catalog Demo.context Demo.expected_outputs)))).
    + reflexivity.
    + simpl. intros H. repeat (apply elem_of_cons in H as [H|H]; [discriminate H|]).
      by apply elem_of_nil in H.
  - apply (proj1 (dispatcher_line_173_catalog Demo.infra_context Demo.expected_outputs)).
    simpl. intros H. repeat (apply elem_of_cons in H as [H|H]; [discriminate H|]).
    by apply elem_of_nil in H.
Defined.

(** X19.  Every plan of the catalog, whatever the volume and the section,
    has four or five implementation steps, three success metrics, and a
    focus and an integration scope that are not empty. *)
Theorem catalog_plans_well_formed (context : AgentExecutionContext)
    (expected_outputs : AgentExecutionOutput) :
  (4 ≤ length (plan_implementation
                 (_generate_execution_plan_line_173 context expected_outputs)) ≤ 5)%nat
  ∧ length (plan_success_metrics
              (_generate_execution_plan_line_173 context expected_outputs)) = 3
  ∧ plan_focus (_generate_execution_plan_line_173 context expected_outputs) ≠ ""
  ∧ plan_memu_integration (_generate_execution_plan_line_173 context expected_outputs)
    ≠ "".
Proof.
  unfold _generate_execution_plan_line_173, _generate_foundational_plan,
    _generate_technical_plan.
  repeat (destruct (decide (target_volume context = _)));
    simpl; repeat (destruct (decide (_ = target_section context))); simpl;
    repeat split; (lia || done).
Qed.

(** ** Learning paths *)

(** X20.  [generate_learning_path] knows two volumes: for every other
    volume name, the empty one included, it returns the generic path and
    raises nothing; the known volumes never get the generic path. *)
Theorem generate_learning_path_fallback (self : Orchestrator) (target_volume : string)
    (days : Z) :
  path_focus (generate_learning_path self target_volume days) = "Generic Learning Path"
  ↔ target_volume ≠ "Volume_1" ∧ target_volume ≠ "Volume_2".
Proof.
  unfold generate_learning_path. simpl.
  destruct (decide ("Volume_1" = target_volume)) as [<-|H1]; simpl.
  - split; [discriminate|]. by intros [? _].
  - destruct (decide ("Volume_2" = target_volume)) as [<-|H2]; simpl.
    + split; [discriminate|]. by intros [_ ?].
    + split; [|done]. intros _. split; congruence.
Qed.

(** ** The status snapshot along the calls *)

Lemma length_filter_insert {A : Type} (P : A → Prop) `{!∀ x, Decision (P x)}
    (l : list A) (i : nat) (x y : A) :
  l !! i = Some x →
  length (filter P (<[i := y]> l)) + (if decide (P x) then 1 else 0)
  = length (filter P l) + (if decide (P y) then 1 else 0).
Proof.
  revert i. induction l as [|z l IH]; intros [|i] Hi; try done; simpl in *.
  - injection Hi as ->. rewrite !filter_cons.
    destruct (decide (P x)), (decide (P y)); simpl; lia.
  - rewrite !filter_cons. specialize (IH i Hi).
    destruct (decide (P z)); simpl; lia.
Qed.

(** The number of agents with status [st]. *)
Lemma count_status_insert (st : string) (m : gmap string Agent) (a : string)
    (agent : Agent) :
  length (filter (λ x, agent_status x = st) (map_to_list (<[a := agent]> m)).*2)
  + (match m !! a with
     | Some old => if decide (agent_status old = st) then 1 else 0
     | None => 0
     end)
  = length (filter (λ x, agent_status x = st) (map_to_list m).*2)
    + (if decide (agent_status agent = st) then 1 else 0).
Proof.
  assert (∀ (m' : gmap string Agent) x, m' !! a = None →
            length (filter (λ x, agent_status x = st) (map_to_list (<[a := x]> m')).*2)
            = (if decide (agent_status x = st) then 1 else 0)
              + length (filter (λ x, agent_status x = st) (map_to_list m').*2)) as Hfresh.
  { intros m' x Hm'.
    rewrite (Permutation_length
               (filter_Permutation _ _ _ (fmap_Permutation snd _ _
                  (map_to_list_insert m' a x Hm')))).
    simpl. rewrite filter_cons. simpl. by destruct (decide (agent_status x = st)). }
  destruct (m !! a) as [old|] eqn:Ea.
  - pose proof (Hfresh (delete a m) agent (lookup_delete_eq m a)) as H1.
    pose proof (Hfresh (delete a m) old (lookup_delete_eq m a)) as H2.
    rewrite insert_delete_eq in H1. rewrite (insert_delete_id m a old Ea) in H2.
    rewrite H1, H2. lia.
  - rewrite Hfresh by done. lia.
Qed.

(** X21.  Creating a task adds one to the count of queued tasks of the
    status snapshot and changes no other count. *)
Theorem snapshot_after_create (self : Orchestrator) (now_id now_created : datetime)
    (context : AgentExecutionContext) (expected_outputs : AgentExecutionOutput) :
  get_execution_status
    (create_execution_task self now_id now_created context expected_outputs).1
  = {| total_agents := total_agents (get_execution_status self);
       available_agents := available_agents (get_execution_status self);
       busy_agents := busy_agents (get_execution_status self);
       queued_tasks := S (queued_tasks (get_execution_status self));
       in_progress_tasks := in_progress_tasks (get_execution_status self);
       completed_tasks := completed_tasks (get_execution_status self) |}.
Proof.
  unfold get_execution_status, agent_values. simpl.
  rewrite !filter_app, !length_app. simpl. f_equal; lia.
Qed.

(** X22.  Registering an agent under a name not yet in the registry adds
    one to the total and to the available agents of the snapshot;
    registering a name anew keeps the total, and moves the agent from the
    busy to the available ones if it was busy.  The task counts stay. *)
Theorem snapshot_after_register (self : Orchestrator) (a : string)
    (capabilities : list string) (reality_layers : list RealityLayer)
    (power_machines : list PowerMachine) :
  let before := get_execution_status self in
  let after :=
    get_execution_status
      (register_agent self a capabilities reality_layers power_machines) in
  queued_tasks after = queued_tasks before
  ∧ in_progress_tasks after = in_progress_tasks before
  ∧ completed_tasks after = completed_tasks before
  ∧ (agents self !! a = None →
     total_agents after = S (total_agents before)
     ∧ available_agents after = S (available_agents before)
     ∧ busy_agents after = busy_agents before)
  ∧ (∀ old, agents self !! a = Some old →
     total_agents after = total_agents before
     ∧ (agent_status old = "Busy" →
        available_agents after = S (available_agents before)
        ∧ S (busy_agents after) = busy_agents before)
     ∧ (agent_status old = "Available" →
        available_agents after = available_agents before
        ∧ busy_agents after = busy_agents before)).
Proof.
  simpl. do 3 (split; [done|]). unfold agent_values. simpl.
  set (agent := {| agent_capabilities := capabilities;
                   agent_reality_layers := reality_layers;
                   agent_power_machines := power_machines;
                   agent_status := "Available"; agent_current_task := None |}).
  pose proof (count_status_insert "Available" (agents self) a agent) as Hav.
  pose proof (count_status_insert "Busy" (agents self) a agent) as Hbu.
  simpl in Hav, Hbu. split.
  - intros Hnone. rewrite Hnone in Hav, Hbu.
    split; [by apply map_size_insert_None|]. lia.
  - intros old Hold. rewrite Hold in Hav, Hbu.
    split; [apply map_size_insert_Some; eauto|]. split; intros Hs; rewrite Hs in Hav, Hbu;
      simpl in Hav, Hbu; lia.
Qed.

Lemma snapshot_after_register_witness :
  total_agents
    (get_execution_status (register_agent (run Demo.assigned) "A1" ["build"] [] []))
  = S (total_agents (get_execution_status (run Demo.assigned)))
  ∧ S (busy_agents
         (get_execution_status
            (register_agent (run Demo.assigned) "TechnicalAgent" ["build"] [] [])))
    = busy_agents (get_execution_status (run Demo.assigned)).
Proof.
  split.
  - apply (snapshot_after_register (run Demo.assigned) "A1" ["build"] [] []).
    vm_compute. reflexivity.
  - destruct (agents (run Demo.assigned) !! "TechnicalAgent") as [old|] eqn:E;
      [|vm_compute in E; discriminate].
    assert (agent_status old = "Busy") as Hs
      by (vm_compute in E; injection E as <-; reflexivity).
    apply (proj2 (proj2 (proj2 (proj2
             (snapshot_after_register (run Demo.assigned) "TechnicalAgent" ["build"] [] []))))
             old E); exact Hs.
Defined.

(** X23.  A successful assignment of a queued task moves one agent from
    available to busy and one task from queued to in progress in the
    snapshot; a successful execution of a task in progress whose agent is
    busy moves the agent back and the task on to completed. *)
Theorem snapshot_after_assign_and_execute (self : Orchestrator) (tid : string)
    (i : nat) (task : Task) :
  find_task (execution_queue self) tid = Some (i, task) →
  (∀ a,
     task_status task = "Queued" →
     (assign_agent_to_task self tid a).2 = true →
     let before := get_execution_status self in
     let after := get_execution_status (assign_agent_to_task self tid a).1 in
     total_agents after = total_agents before
     ∧ S (available_agents after) = available_agents before
     ∧ busy_agents after = S (busy_agents before)
     ∧ S (queued_tasks after) = queued_tasks before
     ∧ in_progress_tasks after = S (in_progress_tasks before)
     ∧ completed_tasks after = completed_tasks before)
  ∧ (∀ now a agent,
       task_status task = "In Progress" →
       task_assigned_agent task = Some a → a ≠ "" →
       agents self !! a = Some agent → agent_status agent = "Busy" →
       let before := get_execution_status self in
       let after := get_execution_status (execute_task self now tid).1 in
       total_agents after = total_agents before
       ∧ available_agents after = S (available_agents before)
       ∧ S (busy_agents after) = busy_agents before
       ∧ queued_tasks after = queued_tasks before
       ∧ S (in_progress_tasks after) = in_progress_tasks before
       ∧ completed_tasks after = S (completed_tasks before)).
Proof.
  intros Hf. destruct (find_task_Some _ _ _ _ Hf) as [Hi _]. split.
  - intros a Hs Hok. revert Hok. unfold assign_agent_to_task. rewrite Hf.
    destruct (agents self !! a) as [agent|] eqn:Ea; [|done].
    destruct (decide (agent_status agent ≠ "Available")) as [|Hav]; [done|]. intros _.
    assert (agent_status agent = "Available") as Hav'
      by (by destruct (decide (agent_status agent = "Available"))).
    simpl. unfold agent_values. simpl.
    pose proof (count_status_insert "Available" (agents self) a (agent_busy agent tid)) as H1.
    pose proof (count_status_insert "Busy" (agents self) a (agent_busy agent tid)) as H2.
    pose proof (length_filter_insert (λ t, task_status t = "Queued") _ i task
                  (task_assigned task a) Hi) as H3.
    pose proof (length_filter_insert (λ t, task_status t = "In Progress") _ i task
                  (task_assigned task a) Hi) as H4.
    pose proof (length_filter_insert (λ t, task_status t = "Completed") _ i task
                  (task_assigned task a) Hi) as H5.
    cbv beta in H1, H2, H3, H4, H5.
    rewrite Ea, Hav' in H1, H2. rewrite Hs in H3, H4, H5. simpl in H1, H2, H3, H4, H5.
    split; [apply map_size_insert_Some; eauto|].
    repeat case_decide; try discriminate; lia.
  - intros now a agent Hs Ha Hne Eg Hbusy. unfold execute_task. rewrite Hf, Ha.
    rewrite decide_False by done. rewrite Eg. simpl. unfold agent_values. simpl.
    pose proof (count_status_insert "Available" (agents self) a (agent_available agent)) as H1.
    pose proof (count_status_insert "Busy" (agents self) a (agent_available agent)) as H2.
    pose proof (length_filter_insert (λ t, task_status t = "Queued") _ i task
                  (task_completed task (task_execution_results task) now) Hi) as H3.
    pose proof (length_filter_insert (λ t, task_status t = "In Progress") _ i task
                  (task_completed task (task_execution_results task) now) Hi) as H4.
    pose proof (length_filter_insert (λ t, task_status t = "Completed") _ i task
                  (task_completed task (task_execution_results task) now) Hi) as H5.
    cbv beta in H1, H2, H3, H4, H5.
    rewrite Eg, Hbusy in H1, H2. rewrite Hs in H3, H4, H5. simpl in H1, H2, H3, H4, H5.
    split; [apply map_size_insert_Some; eauto|].
    repeat case_decide; try discriminate; lia.
Qed.

Lemma snapshot_after_assign_and_execute_witness :
  in_progress_tasks
    (get_execution_status
       (assign_agent_to_task (run Demo.created) Demo.tid "TechnicalAgent").1)
  = S (in_progress_tasks (get_execution_status (run Demo.created))).
Proof.
  destruct (find_task (execution_queue (run Demo.created)) Demo.tid) as [[i task]|] eqn:Ef;
    [|vm_compute in Ef; discriminate].
  assert (task_status task = "Queued") as Hs
    by (vm_compute in Ef; injection Ef as _ <-; reflexivity).
  apply (proj1 (snapshot_after_assign_and_execute (run Demo.created) Demo.tid i task Ef)
           "TechnicalAgent" Hs).
  vm_compute. reflexivity.
Defined.

(** ** The registry and the results over a run *)

Lemma run_from_agents_dom (calls : list Call) : ∀ (self : Orchestrator),
  dom (agents (run_from self calls)) = dom (agents self) ∪ registered_names calls.
Proof.
  induction calls as [|c calls IH]; intros self.
  - unfold registered_names. simpl. set_solver.
  - change (run_from self (c :: calls)) with (run_from (step self c) calls).
    rewrite IH, step_agents_dom. unfold registered_names. simpl.
    destruct (registered_name c); simpl; set_solver.
Qed.

(** X24.  After any run from a fresh orchestrator the total of agents in
    the status snapshot is the number of distinct names the run has
    registered: registering a name again does not count twice, and no
    other call changes the total. *)
Theorem total_agents_counts_names (calls : list Call) :
  total_agents (get_execution_status (run calls)) = size (registered_names calls).
Proof.
  simpl. rewrite <- size_dom. unfold run. rewrite run_from_agents_dom.
  simpl. rewrite dom_empty_L. f_equal. set_solver.
Qed.

(** X25.  In every state reachable from a fresh orchestrator the results
    stored in a task are those of the task's own context: the four
    estimator strings computed from it, with execution status "Completed"
    and the plan of the execution playbooks. *)
Theorem stored_results_match_context (calls : list Call) (task : Task)
    (results : ExecutionResults) :
  task ∈ execution_queue (run calls) →
  task_results task = Some results →
  res_cross_dimensional_impact results
    = _calculate_cross_dimensional_impact (task_context task)
  ∧ res_business_value results = _calculate_business_value (task_context task)
  ∧ res_temporal_optimization results
    = _calculate_temporal_optimization (task_context task)
  ∧ res_energy_efficiency results = _calculate_energy_efficiency (task_context task)
  ∧ res_execution_status results = "Completed"
  ∧ res_plan_focus results = "Execution Optimization"
  ∧ length (res_implementation_steps results) = 4
  ∧ length (res_success_metrics results) = 3.
Proof.
  intros Hin Hr. destruct (run_task_ok calls task Hin) as (_ & _ & _ & Hres).
  by rewrite (Hres results Hr).
Qed.

Lemma stored_results_match_context_witness :
  ∃ task results,
    execution_queue (run Demo.executed) !! 0 = Some task
    ∧ task_results task = Some results
    ∧ res_business_value results = _calculate_business_value (task_context task).
Proof.
  destruct (execution_queue (run Demo.executed) !! 0) as [task|] eqn:E;
    [|vm_compute in E; discriminate].
  destruct (task_results task) as [results|] eqn:Er;
    [|vm_compute in E; injection E as <-; discriminate Er].
  exists task, results. split; [reflexivity|]. split; [exact Er|].
  refine (proj1 (proj2 (stored_results_match_context Demo.executed task results _ Er))).
  apply list_elem_of_lookup. exists 0. exact E.
Defined.
